(** * Auth, middleware and background-task core of the FastAPI tutorial

    A shallow embedding of the stateful parts of
    [09_authentication.py], [11_middleware.py] and [12_background_tasks.py],
    and the properties of the specification that concern them.

    Conventions.
    - Module-level Python dictionaries and sets become fields of a [World]
      record that every operation threads through (state passing).
    - A Python call that may raise is a computation in the monad [M W]:
      it returns [Ok v] or [Raise e] together with the new world.
    - [datetime.now()] is a field of the world, set by the environment before
      a request is served; datetimes are integers counting microseconds.
    - Calls to [logger] write to the process log, which is not part of the
      modelled state, and are left out.
    - Functions of libraries ([jwt], [pwd_context], pydantic, [json.loads],
      [pathlib], Starlette's own layers) are parameters of the model; a call
      into one returns a value or raises, and no assumption is made on which
      exceptions it raises. *)

From Stdlib Require Import ZArith String Ascii List Lia Bool DecimalString.
From Stdlib Require Import Floats.PrimFloat.
From stdpp Require Import gmap strings list.

(** ** Python values shared by the three files *)

#[local] Set Warnings "-register-all,-inexact-float".

(** JSON-like content of a response body or of a task result. *)
Inductive json : Type :=
| JNull
| JBool (b : bool)
| JInt (z : Z)
| JStr (s : string)
| JList (l : list json)
| JDict (d : list (string * json)).

(** The exceptions that occur in the modelled code.  [JWTError] is the base
    class of python-jose; [ExpiredSignatureError] and [JWTClaimsError] are
    its subclasses.  [JSONDecodeError] is what [json.loads] raises on a text
    that is not JSON; [ValueError], [RecursionError], [ValidationError] and
    [OSError] are what the libraries raise besides their documented errors:
    [json.loads] on an integer literal of more than 4300 digits or on deep
    nesting, pydantic on a value of the wrong type, passlib on a secret it
    does not accept, [pathlib] on a name the system refuses. *)
Inductive exn : Type :=
| Exception (msg : string)
| UnicodeDecodeError
| IndexError
| JWTError
| ExpiredSignatureError
| JWTClaimsError
| HTTPException (status : Z) (detail : string) (hdrs : list (string * string))
| JSONDecodeError
| ValueError (msg : string)
| RecursionError
| ValidationError
| OSError (msg : string).

(** [isinstance(e, JWTError)], as tested by [except JWTError]. *)
Definition is_JWTError (e : exn) : bool :=
  match e with
  | JWTError | ExpiredSignatureError | JWTClaimsError => true
  | _ => false
  end.

(** [isinstance(e, json.JSONDecodeError)], as tested by
    [except json.JSONDecodeError]. *)
Definition is_JSONDecodeError (e : exn) : bool :=
  match e with
  | JSONDecodeError => true
  | _ => false
  end.

(** [isinstance(e, Exception)]: every modelled exception derives from it. *)
Definition is_Exception (e : exn) : bool := true.

Inductive Exc (A : Type) : Type :=
| Ok (a : A)
| Raise (e : exn).
Arguments Ok {A} a.
Arguments Raise {A} e.

(** State and exception monad over a world [W]. *)
Definition M (W A : Type) : Type := W -> Exc A * W.

Definition ret {W A} (a : A) : M W A := fun w => (Ok a, w).

Definition raise {W A} (e : exn) : M W A := fun w => (Raise e, w).

Definition bind {W A B} (c : M W A) (k : A -> M W B) : M W B :=
  fun w => match c w with
           | (Ok a, w') => k a w'
           | (Raise e, w') => (Raise e, w')
           end.

(** [try: c  except <cls> as e: h e]; an exception outside [cls] propagates. *)
Definition try_except {W A} (c : M W A) (cls : exn -> bool) (h : exn -> M W A) : M W A :=
  fun w => match c w with
           | (Ok a, w') => (Ok a, w')
           | (Raise e, w') => if cls e then h e w' else (Raise e, w')
           end.

Definition get {W} : M W W := fun w => (Ok w, w).

(** The outcome of a call into a library, which has no access to the state. *)
Definition call {W A} (outcome : Exc A) : M W A := fun w => (outcome, w).

Definition modify {W} (f : W -> W) : M W unit := fun w => (Ok tt, f w).

Notation "x <~ c ;; k" := (bind c (fun x => k))
  (at level 100, c at next level, right associativity).
Notation "c ;;; k" := (bind c (fun _ => k))
  (at level 100, right associativity).

(** [str(n)] for a Python int. *)
Definition str_Z (n : Z) : string := NilZero.string_of_int (Z.to_int n).

(** [s.split(sep)] for a one-character separator. *)
Fixpoint split (sep : ascii) (s : string) : list string :=
  match s with
  | EmptyString => [EmptyString]
  | String c rest =>
      if Ascii.eqb c sep then EmptyString :: split sep rest
      else match split sep rest with
           | [] => [String c EmptyString]
           | w :: ws => String c w :: ws
           end
  end.

(** [s.startswith(p)]. *)
Definition startswith (s p : string) : bool := String.prefix p s.

(** ** [11_middleware.py] *)
Module Middleware.

(** [timedelta(seconds=s)], in microseconds. *)
Definition timedelta (seconds : Z) : Z := (seconds * 1000000)%Z.

(** The bytes of a request body: empty, the UTF-8 encoding of a text, or
    bytes that [bytes.decode] rejects. *)
Inductive Body : Type :=
| NoBody
| Utf8 (text : string)
| NotUtf8.

Record Request : Type := {
  method : string;
  url_path : string;
  req_headers : gmap string string;
  client_host : string;
  body : Body
}.

(** A response: status, headers (framework-generated [content-length] and
    [content-type] are left out) and JSON content. *)
Record Response : Type := {
  status_code : Z;
  headers : gmap string string;
  content : json
}.

Definition JSONResponse (status : Z) (c : json) (hdrs : gmap string string) : Response :=
  {| status_code := status; headers := hdrs; content := c |}.

(** [response.headers[k] = v] *)
Definition set_header (k v : string) (r : Response) : Response :=
  {| status_code := status_code r; headers := <[k := v]> (headers r); content := content r |}.

(** The mutable state of the process while one request is served:
    - [now]: the reading of [datetime.now()];
    - [uuid4]: the value [str(uuid.uuid4())] returns for this request;
    - [process_time]: the text [str(time.time() - start_time)] for it;
    - [timestamp d]: [int(d.timestamp())] for a naive datetime [d], which
      the time zone of the process and the rounding of the binary64 result
      decide;
    - [rate_limit_storage]: the module-level [defaultdict(list)];
    - [state_request_id], [state_user]: the attributes of [request.state],
      an object shared by all the layers that see the request. *)
Record World : Type := {
  now : Z;
  uuid4 : string;
  process_time : string;
  timestamp : Z -> Z;
  rate_limit_storage : gmap string (list Z);
  state_request_id : option string;
  state_user : option json
}.

Definition set_rate_limit_storage (s : gmap string (list Z)) (w : World) : World :=
  {| now := now w; uuid4 := uuid4 w; process_time := process_time w;
     timestamp := timestamp w;
     rate_limit_storage := s;
     state_request_id := state_request_id w; state_user := state_user w |}.

Definition set_state_request_id (i : string) (w : World) : World :=
  {| now := now w; uuid4 := uuid4 w; process_time := process_time w;
     timestamp := timestamp w;
     rate_limit_storage := rate_limit_storage w;
     state_request_id := Some i; state_user := state_user w |}.

Definition set_state_user (u : json) (w : World) : World :=
  {| now := now w; uuid4 := uuid4 w; process_time := process_time w;
     timestamp := timestamp w;
     rate_limit_storage := rate_limit_storage w;
     state_request_id := state_request_id w; state_user := Some u |}.

(** [rate_limit_storage[ip]] read on a [defaultdict(list)]: a missing key
    reads as the empty list. *)
Definition storage_get (s : gmap string (list Z)) (ip : string) : list Z :=
  default [] (s !! ip).

(** An ASGI application as the layers see it, and [call_next]. *)
Definition App : Type := Request -> M World Response.

(** *** 5. TimingMiddleware *)
Definition TimingMiddleware_dispatch (request : Request) (call_next : App) : M World Response :=
  w <~ get ;;
  let request_id := uuid4 w in
  modify (set_state_request_id request_id) ;;;
  response <~ call_next request ;;
  w' <~ get ;;
  let response := set_header "X-Process-Time" (process_time w') response in
  let response := set_header "X-Request-ID" request_id response in
  ret response.

(** *** 6. RateLimitMiddleware *)
Record RateLimitMiddleware : Type := {
  calls : Z;
  period : Z
}.

Definition rate_limit_exceeded (self : RateLimitMiddleware) : Response :=
  JSONResponse 429
    (JDict [("error", JStr "Rate limit exceeded");
            ("message", JStr ("Maximum " ++ str_Z (calls self) ++ " requests per "
                              ++ str_Z (period self) ++ " seconds allowed"));
            ("retry_after", JInt (period self))])
    {["Retry-After" := str_Z (period self)]}.

Definition RateLimitMiddleware_dispatch (self : RateLimitMiddleware)
    (request : Request) (call_next : App) : M World Response :=
  let client_ip := client_host request in
  w <~ get ;;
  let current_time := now w in
  let cutoff_time := (current_time - timedelta (period self))%Z in
  modify (fun w => set_rate_limit_storage
            (<[client_ip := filter (fun timestamp => (cutoff_time < timestamp)%Z)
                                   (storage_get (rate_limit_storage w) client_ip)]>
               (rate_limit_storage w)) w) ;;;
  w <~ get ;;
  if (calls self <=? Z.of_nat (length (storage_get (rate_limit_storage w) client_ip)))%Z
  then ret (rate_limit_exceeded self)
  else
    modify (fun w => set_rate_limit_storage
              (<[client_ip := storage_get (rate_limit_storage w) client_ip ++ [current_time]]>
                 (rate_limit_storage w)) w) ;;;
    response <~ call_next request ;;
    w <~ get ;;
    let remaining :=
      (calls self - Z.of_nat (length (storage_get (rate_limit_storage w) client_ip)))%Z in
    let response := set_header "X-RateLimit-Limit" (str_Z (calls self)) response in
    let response := set_header "X-RateLimit-Remaining" (str_Z remaining) response in
    let response := set_header "X-RateLimit-Reset"
                      (str_Z (timestamp w (current_time + timedelta (period self)))) response in
    ret response.

(** *** 7. SecurityHeadersMiddleware *)
Definition SecurityHeadersMiddleware_dispatch (request : Request) (call_next : App) : M World Response :=
  response <~ call_next request ;;
  let response := set_header "X-Content-Type-Options" "nosniff" response in
  let response := set_header "X-Frame-Options" "DENY" response in
  let response := set_header "X-XSS-Protection" "1; mode=block" response in
  let response := set_header "Strict-Transport-Security"
                    "max-age=31536000; includeSubDomains" response in
  let response := set_header "Referrer-Policy" "strict-origin-when-cross-origin" response in
  let response := set_header "Content-Security-Policy" "default-src 'self'" response in
  ret response.

(** *** 8. LoggingMiddleware *)

(** [if body:] empty bytes are falsy. *)
Definition nonempty (b : Body) : bool :=
  match b with
  | NoBody | Utf8 EmptyString => false
  | Utf8 _ | NotUtf8 => true
  end.

(** [body.decode()] *)
Definition decode (b : Body) : M World string :=
  match b with
  | NoBody => ret EmptyString
  | Utf8 text => ret text
  | NotUtf8 => raise UnicodeDecodeError
  end.

(** [json.loads] is the standard library's: a parameter of the layer.  It
    returns the value, or raises [JSONDecodeError], or raises something else
    ([ValueError] on an integer literal of more than 4300 digits,
    [RecursionError] on deep nesting).  The body is read for the log only;
    what remains visible is what escapes: the [try] around [json.loads]
    catches [JSONDecodeError] alone, and it is not inside the [try] that
    guards [call_next]. *)
Definition LoggingMiddleware_dispatch (json_loads : string -> Exc json)
    (request : Request) (call_next : App) : M World Response :=
  request_body <~
    (if existsb (String.eqb (method request)) ["POST"; "PUT"; "PATCH"]
     then
       let body := body request in
       if nonempty body
       then try_except
              (text <~ decode body ;;
               value <~ call (json_loads text) ;;
               ret (Some value))
              is_JSONDecodeError
              (fun _ => text <~ decode body ;;
                        ret (Some (JStr (substring 0 500 text))))
       else ret None
     else ret None) ;;
  try_except (call_next request) is_Exception
    (fun e =>
       w <~ get ;;
       ret (JSONResponse 500
              (JDict [("error", JStr "Internal Server Error");
                      ("message", JStr "An error occurred while processing your request");
                      ("request_id", JStr (default "unknown" (state_request_id w)))])
              ∅)).

(** *** 9. AuthMiddleware *)
Definition PROTECTED_PATHS : list string := ["/protected"; "/admin"].

Definition _validate_token (token : string) : bool := startswith token "valid_".

Definition _get_user_from_token (token : string) : json :=
  JDict [("id", JInt 1); ("username", JStr "demo_user"); ("email", JStr "demo@example.com")].

Definition auth_required : Response :=
  JSONResponse 401
    (JDict [("error", JStr "Authentication required");
            ("message", JStr "Please provide a valid Bearer token")]) ∅.

Definition invalid_token : Response :=
  JSONResponse 401
    (JDict [("error", JStr "Invalid token");
            ("message", JStr "The provided token is invalid or expired")]) ∅.

Definition AuthMiddleware_dispatch (request : Request) (call_next : App) : M World Response :=
  let path := url_path request in
  let requires_auth := existsb (fun protected => startswith path protected) PROTECTED_PATHS in
  if requires_auth then
    match req_headers request !! "Authorization" with
    | None => ret auth_required
    | Some auth_header =>
        if String.eqb auth_header "" || negb (startswith auth_header "Bearer ")
        then ret auth_required
        else
          match split " " auth_header !! 1%nat with
          | None => raise IndexError
          | Some token =>
              if negb (_validate_token token) then ret invalid_token
              else
                modify (set_state_user (_get_user_from_token token)) ;;;
                call_next request
          end
    end
  else call_next request.

(** *** The middleware stack *)

(** The classes handed to [app.add_middleware]. *)
Inductive MiddlewareClass : Type :=
| CORSMiddleware
| GZipMiddleware
| TrustedHostMiddleware
| SessionMiddleware
| TimingMiddleware
| RateLimit (self : RateLimitMiddleware)
| SecurityHeadersMiddleware
| LoggingMiddleware
| AuthMiddleware.

(** Starlette's [add_middleware]: [self.user_middleware.insert(0, ...)]. *)
Definition add_middleware (cls : MiddlewareClass) (user_middleware : list MiddlewareClass)
  : list MiddlewareClass := cls :: user_middleware.

(** The nine [app.add_middleware] statements of the file, in textual order
    (the first statement is the innermost application below). *)
Definition user_middleware : list MiddlewareClass :=
  add_middleware AuthMiddleware
    (add_middleware LoggingMiddleware
      (add_middleware SecurityHeadersMiddleware
        (add_middleware (RateLimit {| calls := 100; period := 60 |})
          (add_middleware TimingMiddleware
            (add_middleware SessionMiddleware
              (add_middleware TrustedHostMiddleware
                (add_middleware GZipMiddleware
                  (add_middleware CORSMiddleware [])))))))).

Section Stack.

(** [json.loads], the four library layers and the router with the route
    handlers are not the file's; they are parameters of the model. *)
Variable json_loads : string -> Exc json.
Variable library_layer : MiddlewareClass -> App -> App.
Variable router : App.

Definition wrap (cls : MiddlewareClass) (app : App) : App :=
  match cls with
  | TimingMiddleware => fun request => TimingMiddleware_dispatch request app
  | RateLimit self => fun request => RateLimitMiddleware_dispatch self request app
  | SecurityHeadersMiddleware => fun request => SecurityHeadersMiddleware_dispatch request app
  | LoggingMiddleware => fun request => LoggingMiddleware_dispatch json_loads request app
  | AuthMiddleware => fun request => AuthMiddleware_dispatch request app
  | CORSMiddleware | GZipMiddleware | TrustedHostMiddleware | SessionMiddleware =>
      library_layer cls app
  end.

(** Starlette's [build_middleware_stack]:
    [app = self.router; for cls in reversed(middleware): app = cls(app)],
    so the head of the list is the outermost layer. *)
Definition build_middleware_stack (middleware : list MiddlewareClass) : App :=
  fold_right wrap router middleware.

Definition app : App := build_middleware_stack user_middleware.

End Stack.

(** The environment serves one request: it fixes the clock reading and starts
    from a fresh [request.state]. *)
Definition serve (a : App) (t : Z) (request : Request) (w : World) : Exc Response * World :=
  a request {| now := t; uuid4 := uuid4 w; process_time := process_time w;
     timestamp := timestamp w;
               rate_limit_storage := rate_limit_storage w;
               state_request_id := None; state_user := None |}.

(** Requests served one after the other, each at its own clock reading. *)
Fixpoint serve_all (a : App) (reqs : list (Z * Request)) (w : World)
  : list (Exc Response) * World :=
  match reqs with
  | [] => ([], w)
  | (t, request) :: rest =>
      let '(r, w1) := serve a t request w in
      let '(rs, w2) := serve_all a rest w1 in
      (r :: rs, w2)
  end.

(** [int(d.timestamp())] in a process whose local time is UTC, for a
    datetime counted in microseconds from the epoch. *)
Definition utc_timestamp (d : Z) : Z := Z.quot d 1000000.

(** The response is the limiter's own 429. *)
Definition is_429 (r : Exc Response) : bool :=
  match r with
  | Ok resp => (status_code resp =? 429)%Z
  | Raise _ => false
  end.

End Middleware.

(** ** [09_authentication.py] *)
Module Auth.

Definition SECRET_KEY : string := "your-secret-key-here-make-it-long-and-random".
Definition ALGORITHM : string := "HS256".
Definition ACCESS_TOKEN_EXPIRE_MINUTES : Z := 30.
Definition REFRESH_TOKEN_EXPIRE_DAYS : Z := 7.

(** The claims the file puts into a token; a claim that is absent from the
    dict is [None]. *)
Record Payload : Type := {
  claim_sub : option string;
  claim_scopes : option (list string);
  claim_type : option string;
  claim_exp : option Z
}.

(** The claims [jwt.decode] reads from a token: whatever JSON the token
    carries under ["sub"], ["scopes"] and ["type"] ([None] for a claim that
    is absent), and the number under ["exp"]. *)
Record Claims : Type := {
  get_sub : option json;
  get_scopes : option json;
  get_type : option json;
  get_exp : option Z
}.

Record TokenData : Type := {
  td_email : option string;
  td_scopes : list string
}.

(** python-jose, passlib and pydantic are libraries: their functions are an
    interface of the model.  Each returns a value or raises, and what a
    library raises is not limited to the errors it documents.
    - [jwt_encode claims key]: [jwt.encode(claims, key, algorithm=ALGORITHM)];
    - [jws_verify token key]: the parsing, the signature check and the
      reading of the claims of [jwt.decode].  A token that is malformed or
      badly signed raises [JWTError]; python-jose lets other exceptions
      through ([RecursionError] on a header of deeply nested JSON);
    - [pwd_hash], [pwd_verify]: [pwd_context.hash] and [pwd_context.verify],
      which raise on a secret that passlib does not accept (longer than 4096
      characters, or with a NUL character in it for bcrypt);
    - [TokenData_coerce email scopes]: what pydantic makes of
      [TokenData(email=email, scopes=scopes)] when a value is not of the type
      of its field: a coerced model or [ValidationError]. *)
Class Library : Type := {
  jwt_encode : Payload -> string -> string;
  jws_verify : string -> string -> Exc Claims;
  pwd_hash : string -> Exc string;
  pwd_verify : string -> string -> Exc bool;
  TokenData_coerce : json -> json -> Exc TokenData
}.

Record UserInDB : Type := {
  email : string;
  full_name : string;
  is_active : bool;
  id : Z;
  hashed_password : string;
  created_at : Z;
  last_login : option Z;
  roles : list string;
  scopes : list string
}.

Record Token : Type := {
  access_token : string;
  refresh_token_ : string;
  token_type : string;
  expires_in : Z;
  token_scopes : list string
}.

Record LoginRequest : Type := {
  lr_email : string;
  lr_password : string
}.

(** The module-level state and the two clocks: [utcnow] in seconds (what a
    token's [exp] is compared with), [now] for [datetime.now()].  [users_db]
    is a dict iterated in insertion order, hence an association list. *)
Record World : Type := {
  utcnow : Z;
  now : Z;
  users_db : list (Z * UserInDB);
  revoked_tokens : gset string
}.

Definition set_users_db (db : list (Z * UserInDB)) (w : World) : World :=
  {| utcnow := utcnow w; now := now w; users_db := db; revoked_tokens := revoked_tokens w |}.

Section WithLibrary.
Context {lib : Library}.

Definition verify_password {W} (plain_password hashed_password : string) : M W bool :=
  call (pwd_verify plain_password hashed_password).

Definition get_password_hash {W} (password : string) : M W string :=
  call (pwd_hash password).

(** The mock database the module builds at import time [t0]; the import
    fails when hashing raises. *)
Definition initial_users_db (t0 : Z) : Exc (list (Z * UserInDB)) :=
  match pwd_hash "admin123" with
  | Raise e => Raise e
  | Ok hashed_admin =>
      match pwd_hash "user123" with
      | Raise e => Raise e
      | Ok hashed_user =>
          Ok [(1%Z, {| email := "admin@example.com"; full_name := "Admin User";
                       is_active := true; id := 1; hashed_password := hashed_admin;
                       created_at := t0; last_login := None; roles := ["admin"];
                       scopes := ["read"; "write"; "admin"] |});
              (2%Z, {| email := "user@example.com"; full_name := "Regular User";
                       is_active := true; id := 2; hashed_password := hashed_user;
                       created_at := t0; last_login := None; roles := ["user"];
                       scopes := ["read"; "write"] |})]
      end
  end.

(** [jwt.decode(token, key, algorithms=[ALGORITHM])]: parsing and signature,
    then the [exp] claim against the clock ([exp < now] is expired). *)
Definition jwt_decode (token key : string) : M World Claims :=
  payload <~ call (jws_verify token key) ;;
  w <~ get ;;
  match get_exp payload with
  | Some e => if (e <? utcnow w)%Z then raise ExpiredSignatureError else ret payload
  | None => ret payload
  end.

(** [payload.get(key)]: Python's [None] for an absent claim, as for a claim
    that is [null]. *)
Definition dict_get_json (claim : option json) : json := default JNull claim.

(** [value is None] *)
Definition is_None (value : json) : bool :=
  match value with
  | JNull => true
  | _ => false
  end.

(** [value != s] for a string [s]: a value that is no string differs. *)
Definition differs (value : json) (s : string) : bool :=
  match value with
  | JStr s' => negb (String.eqb s' s)
  | _ => true
  end.

(** The string, or the list of strings, that a JSON value is already. *)
Definition as_str (value : json) : option string :=
  match value with
  | JStr s => Some s
  | _ => None
  end.

Definition as_str_list (value : json) : option (list string) :=
  match value with
  | JList l => mapM as_str l
  | _ => None
  end.

(** [TokenData(email=email, scopes=scopes)].  pydantic takes a string and a
    list of strings as they are; what it does with other values is the
    library's to say. *)
Definition TokenData_init {W} (email scopes : json) : M W TokenData :=
  match as_str email, as_str_list scopes with
  | Some e, Some l => ret {| td_email := Some e; td_scopes := l |}
  | _, _ => call (TokenData_coerce email scopes)
  end.

(** [expires_delta] is in seconds; [timedelta(0)] is falsy. *)
Definition create_access_token (data : Payload) (expires_delta : option Z) : M World string :=
  w <~ get ;;
  let expire :=
    match expires_delta with
    | Some d => if (d =? 0)%Z then (utcnow w + 15 * 60)%Z else (utcnow w + d)%Z
    | None => (utcnow w + 15 * 60)%Z
    end in
  let to_encode := {| claim_sub := claim_sub data; claim_scopes := claim_scopes data;
                      claim_type := Some "access"; claim_exp := Some expire |} in
  ret (jwt_encode to_encode SECRET_KEY).

Definition create_refresh_token (data : Payload) : M World string :=
  w <~ get ;;
  let expire := (utcnow w + REFRESH_TOKEN_EXPIRE_DAYS * 86400)%Z in
  let to_encode := {| claim_sub := claim_sub data; claim_scopes := claim_scopes data;
                      claim_type := Some "refresh"; claim_exp := Some expire |} in
  ret (jwt_encode to_encode SECRET_KEY).

Definition verify_token (token : string) (token_type : string) : M World (option TokenData) :=
  try_except
    (w <~ get ;;
     if decide (token ∈ revoked_tokens w) then ret None
     else
       payload <~ jwt_decode token SECRET_KEY ;;
       let email := dict_get_json (get_sub payload) in
       let scopes := default (JList []) (get_scopes payload) in
       let token_type_claim := dict_get_json (get_type payload) in
       if is_None email || differs token_type_claim token_type then ret None
       else
         token_data <~ TokenData_init email scopes ;;
         ret (Some token_data))
    is_JWTError
    (fun _ => ret None).

Fixpoint find_user_by_email (db : list (Z * UserInDB)) (e : string) : option UserInDB :=
  match db with
  | [] => None
  | (_, user) :: rest => if String.eqb (email user) e then Some user else find_user_by_email rest e
  end.

Definition get_user_by_email (e : string) : M World (option UserInDB) :=
  w <~ get ;;
  ret (find_user_by_email (users_db w) e).

Definition authenticate_user (e password : string) : M World (option UserInDB) :=
  user <~ get_user_by_email e ;;
  match user with
  | None => ret None
  | Some u =>
      matches <~ verify_password password (hashed_password u) ;;
      if negb matches then ret None
      else ret (Some u)
  end.

Definition credentials_exception : exn :=
  HTTPException 401 "Could not validate credentials" [("WWW-Authenticate", "Bearer")].

Definition get_current_user (token : string) : M World UserInDB :=
  token_data <~ verify_token token "access" ;;
  match token_data with
  | None => raise credentials_exception
  | Some td =>
      user <~ (match td_email td with
               | Some e => get_user_by_email e
               | None => ret None
               end) ;;
      match user with
      | None => raise credentials_exception
      | Some u => ret u
      end
  end.

Definition get_current_active_user (current_user : UserInDB) : M World UserInDB :=
  if negb (is_active current_user) then raise (HTTPException 400 "Inactive user" [])
  else ret current_user.

(** [user.last_login = t] on the object that [get_user_by_email] returned:
    the first entry of [users_db] with that email. *)
Fixpoint set_last_login (db : list (Z * UserInDB)) (e : string) (t : Z) : list (Z * UserInDB) :=
  match db with
  | [] => []
  | (k, user) :: rest =>
      if String.eqb (email user) e
      then (k, {| email := email user; full_name := full_name user;
                  is_active := is_active user; id := id user;
                  hashed_password := hashed_password user; created_at := created_at user;
                  last_login := Some t; roles := roles user; scopes := scopes user |}) :: rest
      else (k, user) :: set_last_login rest e t
  end.

Definition login (login_request : LoginRequest) : M World Token :=
  user <~ authenticate_user (lr_email login_request) (lr_password login_request) ;;
  match user with
  | None =>
      raise (HTTPException 401 "Incorrect email or password" [("WWW-Authenticate", "Bearer")])
  | Some user =>
      modify (fun w => set_users_db (set_last_login (users_db w) (email user) (now w)) w) ;;;
      let access_token_expires := (ACCESS_TOKEN_EXPIRE_MINUTES * 60)%Z in
      access_token <~ create_access_token
        {| claim_sub := Some (email user); claim_scopes := Some (scopes user);
           claim_type := None; claim_exp := None |}
        (Some access_token_expires) ;;
      refresh_token <~ create_refresh_token
        {| claim_sub := Some (email user); claim_scopes := None;
           claim_type := None; claim_exp := None |} ;;
      ret {| access_token := access_token; refresh_token_ := refresh_token;
             token_type := "bearer"; expires_in := (ACCESS_TOKEN_EXPIRE_MINUTES * 60)%Z;
             token_scopes := scopes user |}
  end.

Definition refresh_token (refresh_token : string) : M World Token :=
  token_data <~ verify_token refresh_token "refresh" ;;
  match token_data with
  | None => raise (HTTPException 401 "Invalid refresh token" [])
  | Some td =>
      user <~ (match td_email td with
               | Some e => get_user_by_email e
               | None => ret None
               end) ;;
      match user with
      | None => raise (HTTPException 401 "User not found" [])
      | Some user =>
          let access_token_expires := (ACCESS_TOKEN_EXPIRE_MINUTES * 60)%Z in
          access_token <~ create_access_token
            {| claim_sub := Some (email user); claim_scopes := Some (scopes user);
               claim_type := None; claim_exp := None |}
            (Some access_token_expires) ;;
          new_refresh_token <~ create_refresh_token
            {| claim_sub := Some (email user); claim_scopes := None;
               claim_type := None; claim_exp := None |} ;;
          ret {| access_token := access_token; refresh_token_ := new_refresh_token;
                 token_type := "bearer"; expires_in := (ACCESS_TOKEN_EXPIRE_MINUTES * 60)%Z;
                 token_scopes := scopes user |}
      end
  end.

(** The body of [logout]: it returns the confirmation message. *)
Definition logout (current_user : UserInDB) : M World json :=
  ret (JDict [("message", JStr "Successfully logged out")]).

(** [POST /auth/logout] with the bearer token that [oauth2_scheme] took from
    the [Authorization] header: the dependencies, then the body. *)
Definition post_auth_logout (token : string) : M World json :=
  current_user <~ get_current_user token ;;
  current_user <~ get_current_active_user current_user ;;
  logout current_user.

(** *** The rest of the file: registration, OAuth2 login, authorization,
    user administration and API keys *)

Record UserCreate : Type := {
  uc_email : string;
  uc_full_name : string;
  uc_is_active : bool;
  uc_password : string
}.

Record UserResponse : Type := {
  ur_email : string;
  ur_full_name : string;
  ur_is_active : bool;
  ur_id : Z;
  ur_created_at : Z;
  ur_last_login : option Z;
  ur_roles : list string
}.

(** The [UserResponse] built from [user.dict()]: the fields the response
    model has. *)
Definition UserResponse_of (user : UserInDB) : UserResponse :=
  {| ur_email := email user; ur_full_name := full_name user; ur_is_active := is_active user;
     ur_id := id user; ur_created_at := created_at user; ur_last_login := last_login user;
     ur_roles := roles user |}.

(** Dict operations on [users_db], kept in insertion order. *)
Fixpoint dict_get {V} (db : list (Z * V)) (k : Z) : option V :=
  match db with
  | [] => None
  | (k', v) :: rest => if (k' =? k)%Z then Some v else dict_get rest k
  end.

(** [db[k] = v]: an existing key keeps its place, a new one goes last. *)
Fixpoint dict_set {V} (db : list (Z * V)) (k : Z) (v : V) : list (Z * V) :=
  match db with
  | [] => [(k, v)]
  | (k', v') :: rest => if (k' =? k)%Z then (k, v) :: rest else (k', v') :: dict_set rest k v
  end.

(** [db.pop(k)] on a present key: what is left. *)
Fixpoint dict_remove {V} (db : list (Z * V)) (k : Z) : list (Z * V) :=
  match db with
  | [] => []
  | (k', v') :: rest => if (k' =? k)%Z then rest else (k', v') :: dict_remove rest k
  end.

(** [max(db.keys())]; [None] when the dict is empty and [max] raises. *)
Definition max_key {V} (db : list (Z * V)) : option Z :=
  match db with
  | [] => None
  | (k, _) :: rest => Some (fold_left Z.max (map fst rest) k)
  end.

(** The [ValueError] of [max] on an empty sequence. *)
Definition ValueError_max : exn := Exception "max() arg is an empty sequence".

(** [POST /auth/register].  The new record does not take [is_active] from
    the request: the field keeps its default [True]. *)
Definition register_user (user : UserCreate) : M World UserResponse :=
  existing <~ get_user_by_email (uc_email user) ;;
  match existing with
  | Some _ => raise (HTTPException 400 "User with this email already exists" [])
  | None =>
      w <~ get ;;
      match max_key (users_db w) with
      | None => raise ValueError_max
      | Some m =>
          let new_user_id := (m + 1)%Z in
          hashed_password <~ get_password_hash (uc_password user) ;;
          let new_user :=
            {| email := uc_email user; full_name := uc_full_name user; is_active := true;
               id := new_user_id; hashed_password := hashed_password; created_at := now w;
               last_login := None; roles := ["user"]; scopes := ["read"; "write"] |} in
          modify (fun w => set_users_db (dict_set (users_db w) new_user_id new_user) w) ;;;
          ret (UserResponse_of new_user)
      end
  end.

Record OAuth2PasswordRequestForm : Type := {
  username : string;
  password : string;
  form_scopes : list string
}.

(** [POST /auth/token] *)
Definition login_oauth2 (form_data : OAuth2PasswordRequestForm) : M World Token :=
  user <~ authenticate_user (username form_data) (password form_data) ;;
  match user with
  | None =>
      raise (HTTPException 401 "Incorrect username or password"
               [("WWW-Authenticate", "Bearer")])
  | Some user =>
      let requested_scopes := form_scopes form_data in
      let allowed_scopes :=
        List.filter (fun scope => existsb (String.eqb scope) (scopes user)) requested_scopes in
      let access_token_expires := (ACCESS_TOKEN_EXPIRE_MINUTES * 60)%Z in
      access_token <~ create_access_token
        {| claim_sub := Some (email user); claim_scopes := Some allowed_scopes;
           claim_type := None; claim_exp := None |}
        (Some access_token_expires) ;;
      refresh <~ create_refresh_token
        {| claim_sub := Some (email user); claim_scopes := None;
           claim_type := None; claim_exp := None |} ;;
      ret {| access_token := access_token; refresh_token_ := refresh;
             token_type := "bearer"; expires_in := (ACCESS_TOKEN_EXPIRE_MINUTES * 60)%Z;
             token_scopes := allowed_scopes |}
  end.

(** [check_role] of [require_role(required_role)], given the user its
    dependency resolved. *)
Definition require_role (required_role : string) (current_user : UserInDB) : M World UserInDB :=
  if negb (existsb (String.eqb required_role) (roles current_user))
  then raise (HTTPException 403 ("Operation requires " ++ required_role ++ " role") [])
  else ret current_user.

(** [check_scope] of [require_scope(required_scope)]. *)
Definition require_scope (required_scope : string) (current_user : UserInDB)
  : M World UserInDB :=
  if negb (existsb (String.eqb required_scope) (scopes current_user))
  then raise (HTTPException 403 ("Operation requires " ++ required_scope ++ " scope") [])
  else ret current_user.

(** The dependency chain [get_current_active_user] on a bearer token. *)
Definition current_active_user (token : string) : M World UserInDB :=
  current_user <~ get_current_user token ;;
  get_current_active_user current_user.

(** [GET /auth/me] *)
Definition get_current_user_info (token : string) : M World UserResponse :=
  current_user <~ current_active_user token ;;
  ret (UserResponse_of current_user).

(** The body of [delete_user]. *)
Definition delete_user (user_id : Z) (admin_user : UserInDB) : M World json :=
  w <~ get ;;
  match dict_get (users_db w) user_id with
  | None => raise (HTTPException 404 "User not found" [])
  | Some deleted_user =>
      modify (set_users_db (dict_remove (users_db w) user_id)) ;;;
      ret (JDict [("message",
                   JStr ("User " ++ email deleted_user ++ " deleted successfully"))])
  end.

(** [DELETE /admin/users/{user_id}] with its dependencies. *)
Definition delete_admin_users (token : string) (user_id : Z) : M World json :=
  current_user <~ current_active_user token ;;
  admin_user <~ require_role "admin" current_user ;;
  delete_user user_id admin_user.

(** [GET /admin/users] *)
Definition list_all_users (token : string) : M World (list UserResponse) :=
  current_user <~ current_active_user token ;;
  admin_user <~ require_role "admin" current_user ;;
  w <~ get ;;
  ret (map (fun kv => UserResponse_of (snd kv)) (users_db w)).

(** [POST /data/create] and [GET /data/sensitive]: what they return is the
    email of the user the scope check let through. *)
Definition create_data (token : string) (data : json) : M World json :=
  current_user <~ current_active_user token ;;
  user <~ require_scope "write" current_user ;;
  ret (JDict [("message", JStr "Data created successfully");
              ("data", data);
              ("created_by", JStr (email user))]).

(** **** API keys *)

Record APIKey : Type := {
  ak_key : string;
  ak_name : string;
  ak_user_id : Z;
  ak_scopes : list string;
  ak_is_active : bool;
  ak_created_at : Z;
  ak_expires_at : option Z
}.

Record APIKeyCreate : Type := {
  akc_name : string;
  akc_scopes : list string;
  akc_expires_days : option Z
}.

(** The state with the API keys: the state above, the dict [api_keys_db]
    and the text [secrets.token_urlsafe(32)] returns next.  Here [now] counts
    microseconds. *)
Record KeyWorld : Type := {
  base : World;
  api_keys_db : gmap string APIKey;
  token_urlsafe : string
}.

(** The mock [api_keys_db] at import time [t0]. *)
Definition initial_api_keys_db (t0 : Z) : gmap string APIKey :=
  {["api_key_123" :=
      {| ak_key := "api_key_123"; ak_name := "Test API Key"; ak_user_id := 1;
         ak_scopes := ["read"; "write"]; ak_is_active := true; ak_created_at := t0;
         ak_expires_at := None |}]}.

Definition set_api_keys_db (db : gmap string APIKey) (w : KeyWorld) : KeyWorld :=
  {| base := base w; api_keys_db := db; token_urlsafe := token_urlsafe w |}.

(** A computation on the state above, run in the larger state. *)
Definition lift {A} (c : M World A) : M KeyWorld A :=
  fun w => let '(r, b) := c (base w) in
           (r, {| base := b; api_keys_db := api_keys_db w; token_urlsafe := token_urlsafe w |}).

Definition get_api_key_user (api_key : string) : M KeyWorld (option UserInDB) :=
  w <~ get ;;
  match api_keys_db w !! api_key with
  | None => ret None
  | Some key_data =>
      if negb (ak_is_active key_data) then ret None
      else
        match ak_expires_at key_data with
        | Some e => if (e <? now (base w))%Z then ret None
                    else ret (dict_get (users_db (base w)) (ak_user_id key_data))
        | None => ret (dict_get (users_db (base w)) (ak_user_id key_data))
        end
  end.

(** [s.lower()] on ASCII letters. *)
Definition lower_ascii (c : ascii) : ascii :=
  let n := nat_of_ascii c in
  if (65 <=? n)%nat && (n <=? 90)%nat then ascii_of_nat (n + 32) else c.

Fixpoint lower (s : string) : string :=
  match s with
  | EmptyString => EmptyString
  | String c rest => String (lower_ascii c) (lower rest)
  end.

(** [credentials] is the pair (scheme, credentials) that [HTTPBearer] took
    from the [Authorization] header, or [None]. *)
Definition get_api_key_user_dependency (credentials : option (string * string))
  : M KeyWorld (option UserInDB) :=
  match credentials with
  | None => ret None
  | Some (scheme, cred) =>
      if negb (String.eqb (lower scheme) "bearer") then ret None
      else get_api_key_user cred
  end.

Definition get_current_user_flexible (jwt_user api_key_user : option UserInDB)
  : M KeyWorld UserInDB :=
  match jwt_user with
  | Some u => ret u
  | None =>
      match api_key_user with
      | Some u => ret u
      | None => raise (HTTPException 401 "Authentication required"
                         [("WWW-Authenticate", "Bearer")])
      end
  end.

(** [GET /auth/profile] for a request whose [Authorization] header is
    [Bearer cred]: both security schemes read that header, and both
    dependencies are resolved before [get_current_user_flexible] runs.  Of
    the answer the model keeps the user; the profile data is constant. *)
Definition get_user_profile (cred : string) : M KeyWorld UserResponse :=
  jwt_user <~ lift (get_current_user cred) ;;
  api_key_user <~ get_api_key_user_dependency (Some ("Bearer", cred)) ;;
  current_user <~ get_current_user_flexible (Some jwt_user) api_key_user ;;
  ret (UserResponse_of current_user).

(** [timedelta(days=d)], in microseconds. *)
Definition timedelta_days (d : Z) : Z := (d * 86400 * 1000000)%Z.

(** The body of [create_api_key]; [if api_key_data.expires_days:] is false
    for [None] and for 0. *)
Definition create_api_key (api_key_data : APIKeyCreate) (current_user : UserInDB)
  : M KeyWorld APIKey :=
  w <~ get ;;
  let api_key := ("api_" ++ token_urlsafe w)%string in
  let expires_at :=
    match akc_expires_days api_key_data with
    | Some d => if (d =? 0)%Z then None else Some (now (base w) + timedelta_days d)%Z
    | None => None
    end in
  let allowed_scopes :=
    List.filter (fun scope => existsb (String.eqb scope) (scopes current_user))
      (akc_scopes api_key_data) in
  let new_api_key :=
    {| ak_key := api_key; ak_name := akc_name api_key_data; ak_user_id := id current_user;
       ak_scopes := allowed_scopes; ak_is_active := true; ak_created_at := now (base w);
       ak_expires_at := expires_at |} in
  modify (fun w => set_api_keys_db (<[api_key := new_api_key]> (api_keys_db w)) w) ;;;
  ret new_api_key.

(** The body of [delete_api_key]. *)
Definition delete_api_key (key_id : string) (current_user : UserInDB) : M KeyWorld json :=
  w <~ get ;;
  match api_keys_db w !! key_id with
  | None => raise (HTTPException 404 "API key not found" [])
  | Some api_key =>
      if negb (ak_user_id api_key =? id current_user)%Z
      then raise (HTTPException 403 "Not authorized to delete this API key" [])
      else
        modify (fun w => set_api_keys_db (delete key_id (api_keys_db w)) w) ;;;
        ret (JDict [("message", JStr "API key deleted successfully")])
  end.

(** The body of [list_api_keys]: the keys of the user, as a set of entries. *)
Definition list_api_keys (current_user : UserInDB) : M KeyWorld (gmap string APIKey) :=
  w <~ get ;;
  ret (filter (fun kv => ak_user_id (snd kv) = id current_user) (api_keys_db w)).

End WithLibrary.

End Auth.

(** ** [12_background_tasks.py] *)
Module Tasks.

(** The dataclass [TaskStatus].  [progress] is a Python float, kept as a
    binary64 value; [result] is [Optional[Any]], [None] being [null]. *)
Record TaskStatus : Type := {
  task_id : string;
  status : string;
  created_at : Z;
  started_at : option Z;
  completed_at : option Z;
  progress : float;
  result : option json;
  error : option string;
  metadata : json
}.

Record EmailRequest : Type := {
  to : string;
  subject : string;
  body : string;
  cc : list string;
  bcc : list string
}.

(** A call registered with [background_tasks.add_task]. *)
Inductive BackgroundTask : Type :=
| SendEmailTask (email_request : EmailRequest) (task_id : string).

(** The state of the process:
    - [now]: the reading of [datetime.now()], advanced by [asyncio.sleep];
    - [next_uuid]: what [str(uuid.uuid4())] returns next;
    - [task_storage]: the module-level dict;
    - [background_tasks]: the calls the framework runs once the response
      has been sent, in the order they were added. *)
Record World : Type := {
  now : Z;
  next_uuid : string;
  task_storage : gmap string TaskStatus;
  background_tasks : list BackgroundTask
}.

Definition set_task_storage (s : gmap string TaskStatus) (w : World) : World :=
  {| now := now w; next_uuid := next_uuid w; task_storage := s;
     background_tasks := background_tasks w |}.

Definition set_background_tasks (q : list BackgroundTask) (w : World) : World :=
  {| now := now w; next_uuid := next_uuid w; task_storage := task_storage w;
     background_tasks := q |}.

(** [await asyncio.sleep(seconds)], here in microseconds: the clock moves on.
    The worker is modelled running alone, without other coroutines
    interleaved at its suspension points. *)
Definition sleep (microseconds : Z) : M World unit :=
  modify (fun w => {| now := (now w + microseconds)%Z; next_uuid := next_uuid w;
                      task_storage := task_storage w;
                      background_tasks := background_tasks w |}).

(** [datetime.now().isoformat()]; the text is rendered as the microsecond
    count, its exact format plays no role here. *)
Definition isoformat (t : Z) : string := str_Z t.

Definition create_task_id : M World string :=
  w <~ get ;; ret (next_uuid w).

(** [TaskStatus(task_id=..., metadata=...)] with the dataclass defaults. *)
Definition new_TaskStatus (tid : string) (t : Z) (md : json) : TaskStatus :=
  {| task_id := tid; status := "pending"; created_at := t; started_at := None;
     completed_at := None; progress := 0.0%float; result := None; error := None;
     metadata := md |}.

(** One entry of [**kwargs].  [task_id] and [status] are bound to the two
    positional parameters and cannot occur; a name that is no attribute of
    the task ([hasattr] is false) is [kw_other]. *)
Inductive kwarg : Type :=
| kw_created_at (v : Z)
| kw_started_at (v : option Z)
| kw_completed_at (v : option Z)
| kw_progress (v : float)
| kw_result (v : option json)
| kw_error (v : option string)
| kw_metadata (v : json)
| kw_other (name : string).

Definition set_status (s : string) (t : TaskStatus) : TaskStatus :=
  {| task_id := task_id t; status := s; created_at := created_at t;
     started_at := started_at t; completed_at := completed_at t; progress := progress t;
     result := result t; error := error t; metadata := metadata t |}.

Definition set_started_at (v : option Z) (t : TaskStatus) : TaskStatus :=
  {| task_id := task_id t; status := status t; created_at := created_at t;
     started_at := v; completed_at := completed_at t; progress := progress t;
     result := result t; error := error t; metadata := metadata t |}.

Definition set_completed_at (v : option Z) (t : TaskStatus) : TaskStatus :=
  {| task_id := task_id t; status := status t; created_at := created_at t;
     started_at := started_at t; completed_at := v; progress := progress t;
     result := result t; error := error t; metadata := metadata t |}.

(** [setattr(task, key, value)] for [key] an attribute of the task. *)
Definition setattr (kw : kwarg) (t : TaskStatus) : TaskStatus :=
  match kw with
  | kw_created_at v =>
      {| task_id := task_id t; status := status t; created_at := v;
         started_at := started_at t; completed_at := completed_at t; progress := progress t;
         result := result t; error := error t; metadata := metadata t |}
  | kw_started_at v => set_started_at v t
  | kw_completed_at v => set_completed_at v t
  | kw_progress v =>
      {| task_id := task_id t; status := status t; created_at := created_at t;
         started_at := started_at t; completed_at := completed_at t; progress := v;
         result := result t; error := error t; metadata := metadata t |}
  | kw_result v =>
      {| task_id := task_id t; status := status t; created_at := created_at t;
         started_at := started_at t; completed_at := completed_at t; progress := progress t;
         result := v; error := error t; metadata := metadata t |}
  | kw_error v =>
      {| task_id := task_id t; status := status t; created_at := created_at t;
         started_at := started_at t; completed_at := completed_at t; progress := progress t;
         result := result t; error := v; metadata := metadata t |}
  | kw_metadata v =>
      {| task_id := task_id t; status := status t; created_at := created_at t;
         started_at := started_at t; completed_at := completed_at t; progress := progress t;
         result := result t; error := error t; metadata := v |}
  | kw_other _ => t
  end.

Definition update_task_status (tid : string) (new_status : string) (kwargs : list kwarg)
  : M World unit :=
  w <~ get ;;
  match task_storage w !! tid with
  | Some task =>
      let task := set_status new_status task in
      let task :=
        if String.eqb new_status "running" && negb (bool_decide (is_Some (started_at task)))
        then set_started_at (Some (now w)) task
        else if existsb (String.eqb new_status) ["completed"; "failed"]
             then set_completed_at (Some (now w)) task
             else task in
      let task := fold_left (fun t kw => setattr kw t) kwargs task in
      modify (set_task_storage (<[tid := task]> (task_storage w)))
  | None => ret tt
  end.

(** [log_task_completion(task_id, result=None, error=None)]; [if error:] is
    false for [None] and for the empty string. *)
Definition log_task_completion (tid : string) (res : option json) (err : option string)
  : M World unit :=
  match err with
  | Some (String c s) => update_task_status tid "failed" [kw_error err]
  | Some EmptyString | None => update_task_status tid "completed" [kw_result res]
  end.

(** [str(e)] for the modelled exceptions. *)
Definition str_exn (e : exn) : string :=
  match e with
  | Exception msg | ValueError msg | OSError msg => msg
  | HTTPException _ detail _ => detail
  | _ => ""
  end.

Definition send_email_task (email_request : EmailRequest) (tid : string) : M World unit :=
  try_except
    (update_task_status tid "running" [kw_progress 0.1%float] ;;;
     sleep 1000000 ;;;
     update_task_status tid "running" [kw_progress 0.3%float] ;;;
     sleep 1000000 ;;;
     update_task_status tid "running" [kw_progress 0.6%float] ;;;
     sleep 1000000 ;;;
     update_task_status tid "running" [kw_progress 0.9%float] ;;;
     w <~ get ;;
     let res := JDict [("message", JStr "Email sent successfully");
                       ("to", JStr (to email_request));
                       ("subject", JStr (subject email_request));
                       ("sent_at", JStr (isoformat (now w)))] in
     log_task_completion tid (Some res) None)
    is_Exception
    (fun e => log_task_completion tid None (Some (str_exn e))).

(** [POST /send-email] *)
Definition send_email (email_request : EmailRequest) : M World json :=
  tid <~ create_task_id ;;
  modify (fun w => set_task_storage
            (<[tid := new_TaskStatus tid (now w)
                        (JDict [("type", JStr "email"); ("to", JStr (to email_request))])]>
               (task_storage w)) w) ;;;
  modify (fun w => set_background_tasks
            (background_tasks w ++ [SendEmailTask email_request tid]) w) ;;;
  ret (JDict [("message", JStr "Email sending started");
              ("task_id", JStr tid);
              ("status", JStr "queued")]).

Definition run_task (t : BackgroundTask) : M World unit :=
  match t with
  | SendEmailTask email_request tid => send_email_task email_request tid
  end.

(** The framework runs the registered calls in order after the response. *)
Fixpoint run_tasks (q : list BackgroundTask) : M World unit :=
  match q with
  | [] => ret tt
  | t :: rest => run_task t ;;; run_tasks rest
  end.

Definition run_background_tasks : M World unit :=
  w <~ get ;;
  modify (set_background_tasks []) ;;;
  run_tasks (background_tasks w).

(** [GET /task-status/{task_id}]: the endpoint returns the fields of the
    task it finds; the model returns the record. *)
Definition get_task_status (tid : string) : M World TaskStatus :=
  w <~ get ;;
  match task_storage w !! tid with
  | None => raise (HTTPException 404 ("Task " ++ tid ++ " not found") [])
  | Some task => ret task
  end.

(** *** The other workers and endpoints of the file *)

(** [send_notification_email]; [time.sleep(0.5)] moves the clock. *)
Definition send_notification_email (user_email message tid : string) : M World unit :=
  try_except
    (sleep 500000 ;;;
     w <~ get ;;
     let res := JDict [("email", JStr user_email);
                       ("message", JStr message);
                       ("sent_at", JStr (isoformat (now w)))] in
     update_task_status tid "completed" [kw_result (Some res)])
    is_Exception
    (fun e => update_task_status tid "failed" [kw_error (Some (str_exn e))]).

Record FileProcessRequest : Type := {
  file_path : string;
  operation : string;
  parameters : json
}.

(** [for progress in steps: await asyncio.sleep(pause);
    update_task_status(task_id, "running", progress=progress)] *)
Fixpoint progress_loop (tid : string) (pause : Z) (steps : list float) : M World unit :=
  match steps with
  | [] => ret tt
  | p :: rest =>
      sleep pause ;;;
      update_task_status tid "running" [kw_progress p] ;;;
      progress_loop tid pause rest
  end.

Definition resize_image_task (tid : string) : M World unit :=
  progress_loop tid 500000 [0.3; 0.5; 0.7; 0.9]%float.

Definition convert_file_task (tid : string) : M World unit :=
  progress_loop tid 800000 [0.4; 0.6; 0.8; 1.0]%float.

Definition compress_file_task (tid : string) : M World unit :=
  progress_loop tid 300000 [0.25; 0.5; 0.75; 1.0]%float.

Section FileSystem.

(** The file system and [pathlib] are outside the model:
    [path_str p] is [str(Path(p))] and [path_exists p] is the outcome of
    [Path(p).exists()], which returns a boolean or raises ([OSError] on a
    name the system refuses).  The [FileNotFoundError] and the [ValueError]
    that the worker raises itself are raised as [Exception] with their
    message, which is all that [except Exception as e: str(e)] uses. *)
Variable path_str : string -> string.
Variable path_exists : string -> Exc bool.

Definition process_file_task (file_request : FileProcessRequest) (tid : string)
  : M World unit :=
  try_except
    (update_task_status tid "running" [kw_progress 0.1%float] ;;;
     let path := path_str (file_path file_request) in
     found <~ call (path_exists (file_path file_request)) ;;
     (if negb found
      then raise (Exception ("File not found: " ++ path))
      else ret tt) ;;;
     update_task_status tid "running" [kw_progress 0.2%float] ;;;
     let op := operation file_request in
     (if String.eqb op "resize" then resize_image_task tid
      else if String.eqb op "convert" then convert_file_task tid
      else if String.eqb op "compress" then compress_file_task tid
      else raise (Exception ("Unknown operation: " ++ op))) ;;;
     w <~ get ;;
     let res := JDict [("operation", JStr op);
                       ("file_path", JStr path);
                       ("parameters", parameters file_request);
                       ("processed_at", JStr (isoformat (now w)))] in
     log_task_completion tid (Some res) None)
    is_Exception
    (fun e => log_task_completion tid None (Some (str_exn e))).

End FileSystem.

(** [DELETE /task/{task_id}]: the status code and the body of the answer. *)
Definition cancel_task (tid : string) : M World (Z * json) :=
  w <~ get ;;
  match task_storage w !! tid with
  | None => raise (HTTPException 404 ("Task " ++ tid ++ " not found") [])
  | Some task =>
      if String.eqb (status task) "running"
      then ret (409%Z, JDict [("message", JStr "Cannot cancel running task")])
      else
        modify (fun w => set_task_storage (delete tid (task_storage w)) w) ;;;
        ret (200%Z, JDict [("message", JStr ("Task " ++ tid ++ " removed"))])
  end.

End Tasks.

(** * Properties *)

Lemma bind_Ok {W A B} (c : M W A) (k : A -> M W B) (w w' : W) (a : A) :
  c w = (Ok a, w') -> bind c k w = k a w'.
Proof. intros Hc. unfold bind. rewrite Hc. reflexivity. Qed.

Lemma bind_Raise {W A B} (c : M W A) (k : A -> M W B) (w w' : W) (e : exn) :
  c w = (Raise e, w') -> bind c k w = (Raise e, w').
Proof. intros Hc. unfold bind. rewrite Hc. reflexivity. Qed.

(** ** The task registry *)
Module TasksProofs.
Import Tasks.

Lemma setattr_task_id kw t : task_id (setattr kw t) = task_id t.
Proof. destruct kw; reflexivity. Qed.

Lemma setattr_status kw t : status (setattr kw t) = status t.
Proof. destruct kw; reflexivity. Qed.

Lemma setattrs_task_id kwargs t :
  task_id (fold_left (fun t kw => setattr kw t) kwargs t) = task_id t.
Proof.
  revert t. induction kwargs as [|kw kwargs IH]; intros t; simpl; [reflexivity|].
  rewrite IH. apply setattr_task_id.
Qed.

Lemma setattrs_status kwargs t :
  status (fold_left (fun t kw => setattr kw t) kwargs t) = status t.
Proof.
  revert t. induction kwargs as [|kw kwargs IH]; intros t; simpl; [reflexivity|].
  rewrite IH. apply setattr_status.
Qed.

(** What one call writes into the record it finds. *)
Definition updated (t0 : Z) (new_status : string) (kwargs : list kwarg) (task : TaskStatus)
  : TaskStatus :=
  let task := set_status new_status task in
  let task :=
    if String.eqb new_status "running" && negb (bool_decide (is_Some (started_at task)))
    then set_started_at (Some t0) task
    else if existsb (String.eqb new_status) ["completed"; "failed"]
         then set_completed_at (Some t0) task
         else task in
  fold_left (fun t kw => setattr kw t) kwargs task.

Lemma update_task_status_present tid st kwargs w task :
  task_storage w !! tid = Some task ->
  update_task_status tid st kwargs w
  = (Ok tt, set_task_storage (<[tid := updated (now w) st kwargs task]> (task_storage w)) w).
Proof.
  intros Hin. unfold update_task_status, bind, get, modify. rewrite Hin. reflexivity.
Qed.

Lemma update_task_status_absent tid st kwargs w :
  task_storage w !! tid = None ->
  update_task_status tid st kwargs w = (Ok tt, w).
Proof.
  intros Hout. unfold update_task_status, bind, get, ret. rewrite Hout. reflexivity.
Qed.

Lemma updated_task_id t0 st kwargs task : task_id (updated t0 st kwargs task) = task_id task.
Proof.
  unfold updated. rewrite setattrs_task_id.
  repeat (case_match; simpl); reflexivity.
Qed.

Lemma updated_status t0 st kwargs task : status (updated t0 st kwargs task) = st.
Proof.
  unfold updated. rewrite setattrs_status.
  repeat (case_match; simpl); reflexivity.
Qed.

(** A task that has reached a terminal state, in a registry of its own. *)
Definition finished_task : TaskStatus :=
  {| task_id := "t1"; status := "completed"; created_at := 0; started_at := Some 10%Z;
     completed_at := Some 20%Z; progress := 0.9%float;
     result := Some (JStr "done"); error := None; metadata := JDict [] |}.

Definition finished_world : World :=
  {| now := 30; next_uuid := "t2"; task_storage := {["t1" := finished_task]};
     background_tasks := [] |}.

(** C5, as stated, fails: a status update on a completed task is carried
    out; the task is back in [running] with other progress. *)
Lemma terminal_task_is_overwritten :
  task_storage finished_world !! "t1" = Some finished_task /\
  status finished_task = "completed" /\
  let w' := snd (update_task_status "t1" "running" [kw_progress 0.1%float] finished_world) in
  task_storage w' !! "t1" <> Some finished_task /\
  status <$> (task_storage w' !! "t1") = Some "running".
Proof.
  split; [reflexivity|]. split; [reflexivity|].
  rewrite (update_task_status_present "t1" "running" _ finished_world finished_task)
    by reflexivity.
  simpl. rewrite lookup_insert_eq. split; [|reflexivity].
  intros Heq. apply (f_equal (fmap status)) in Heq. discriminate Heq.
Qed.

(** C5, amended: [update_task_status] does not look at the current status.
    On a task in a terminal state a later call is carried out like any
    other: the record is replaced by one with the status that was passed and
    the same [task_id], the other tasks are untouched; reading the task with
    [get_task_status] changes nothing. *)
Theorem terminal_task_update (w : World) (tid : string) (task : TaskStatus)
    (st : string) (kwargs : list kwarg) :
  task_storage w !! tid = Some task ->
  status task = "completed" \/ status task = "failed" ->
  exists task',
    update_task_status tid st kwargs w
    = (Ok tt, set_task_storage (<[tid := task']> (task_storage w)) w) /\
    status task' = st /\
    task_id task' = task_id task /\
    get_task_status tid w = (Ok task, w).
Proof.
  intros Hin _. exists (updated (now w) st kwargs task).
  split; [apply update_task_status_present; assumption|].
  split; [apply updated_status|].
  split; [apply updated_task_id|].
  unfold get_task_status, bind, get, ret. rewrite Hin. reflexivity.
Qed.

Lemma terminal_task_update_witness :
  exists task',
    update_task_status "t1" "failed" [kw_error (Some "late")] finished_world
    = (Ok tt, set_task_storage (<["t1" := task']> (task_storage finished_world)) finished_world) /\
    status task' = "failed" /\
    task_id task' = task_id finished_task /\
    get_task_status "t1" finished_world = (Ok finished_task, finished_world).
Proof.
  apply (terminal_task_update finished_world "t1" finished_task "failed" [kw_error (Some "late")]).
  - reflexivity.
  - left. reflexivity.
Defined.

(** C10: a status update for a task id that is not in the registry raises
    nothing and leaves the whole state as it was; the same holds for
    [log_task_completion], which goes through [update_task_status]. *)
Theorem update_unknown_task_is_noop (w : World) (tid : string) :
  task_storage w !! tid = None ->
  (forall st kwargs, update_task_status tid st kwargs w = (Ok tt, w)) /\
  (forall res err, log_task_completion tid res err w = (Ok tt, w)).
Proof.
  intros Hout. split.
  - intros st kwargs. apply update_task_status_absent. assumption.
  - intros res err. unfold log_task_completion.
    destruct err as [[|c s]|]; apply update_task_status_absent; assumption.
Qed.

Lemma update_unknown_task_is_noop_witness :
  (forall st kwargs, update_task_status "t9" st kwargs finished_world = (Ok tt, finished_world)) /\
  (forall res err, log_task_completion "t9" res err finished_world = (Ok tt, finished_world)).
Proof.
  apply (update_unknown_task_is_noop finished_world "t9"). reflexivity.
Defined.

(** The result the email worker stores, and the record it leaves behind when
    it finds [task] at clock reading [t0]. *)
Definition email_result (req : EmailRequest) (t : Z) : json :=
  JDict [("message", JStr "Email sent successfully");
         ("to", JStr (to req));
         ("subject", JStr (subject req));
         ("sent_at", JStr (isoformat t))].

Definition after_send_email_task (req : EmailRequest) (t0 : Z) (task : TaskStatus) : TaskStatus :=
  updated (t0 + 3000000) "completed" [kw_result (Some (email_result req (t0 + 3000000)))]
    (updated (t0 + 3000000) "running" [kw_progress 0.9%float]
      (updated (t0 + 2000000) "running" [kw_progress 0.6%float]
        (updated (t0 + 1000000) "running" [kw_progress 0.3%float]
          (updated t0 "running" [kw_progress 0.1%float] task)))).

Ltac world_fields :=
  cbn [set_task_storage set_background_tasks now next_uuid task_storage background_tasks].

Ltac next_update :=
  erewrite bind_Ok;
  [| apply update_task_status_present; world_fields; apply lookup_insert_eq ].

Ltac next_sleep :=
  unfold sleep at 1, modify at 1; unfold bind at 1; world_fields.

Lemma send_email_task_present req tid w task :
  task_storage w !! tid = Some task ->
  send_email_task req tid w
  = (Ok tt, {| now := now w + 3000000; next_uuid := next_uuid w;
               task_storage := <[tid := after_send_email_task req (now w) task]> (task_storage w);
               background_tasks := background_tasks w |}).
Proof.
  intros Hin. unfold send_email_task, try_except.
  rewrite (bind_Ok _ _ _ _ _ (update_task_status_present _ _ _ _ _ Hin)).
  next_sleep. next_update. next_sleep. next_update. next_sleep. next_update.
  unfold bind at 1, get at 1. world_fields.
  unfold log_task_completion.
  erewrite update_task_status_present
    by (world_fields; apply lookup_insert_eq).
  world_fields. rewrite !insert_insert_eq.
  unfold after_send_email_task, email_result.
  replace (now w + 1000000 + 1000000)%Z with (now w + 2000000)%Z by lia.
  replace (now w + 2000000 + 1000000)%Z with (now w + 3000000)%Z by lia.
  reflexivity.
Qed.

Definition mail : EmailRequest :=
  {| to := "user@example.com"; subject := "Test"; body := "Hello!"; cc := []; bcc := [] |}.

Definition idle_world : World :=
  {| now := 0; next_uuid := "t2"; task_storage := ∅; background_tasks := [] |}.

(** C6, as stated, fails on the progress: once the email worker has
    completed, the task is [completed] but [progress == 1.0] is false. *)
Lemma completed_email_progress_not_1 :
  let w1 := snd (send_email mail idle_world) in
  let w2 := snd (run_background_tasks w1) in
  match task_storage w2 !! "t2" with
  | Some t => status t = "completed" /\ PrimFloat.eqb (progress t) 1.0%float = false
  | None => False
  end.
Proof. vm_compute. split; reflexivity. Qed.

(** C6, amended: [send_email] returns the task id and leaves the task
    [pending] (progress 0.0); once the worker has run to completion the task
    is [completed] with a result that is not null, and its progress is the
    last value the worker wrote, 0.9: completion does not set it to 1.0. *)
Theorem send_email_lifecycle (w : World) (req : EmailRequest) :
  background_tasks w = [] ->
  let tid := next_uuid w in
  exists w1 w2 t1 t2,
    send_email req w
    = (Ok (JDict [("message", JStr "Email sending started");
                  ("task_id", JStr tid); ("status", JStr "queued")]), w1) /\
    get_task_status tid w1 = (Ok t1, w1) /\
    status t1 = "pending" /\ progress t1 = 0.0%float /\
    run_background_tasks w1 = (Ok tt, w2) /\
    get_task_status tid w2 = (Ok t2, w2) /\
    status t2 = "completed" /\ progress t2 = 0.9%float /\
    result t2 = Some (email_result req (now w + 3000000)) /\
    error t2 = None.
Proof.
  intros Hq tid.
  set (md := JDict [("type", JStr "email"); ("to", JStr (to req))]).
  set (t1 := new_TaskStatus tid (now w) md).
  set (w1 := {| now := now w; next_uuid := next_uuid w;
                task_storage := <[tid := t1]> (task_storage w);
                background_tasks := [SendEmailTask req tid] |}).
  set (t2 := after_send_email_task req (now w) t1).
  set (w2 := {| now := now w + 3000000; next_uuid := next_uuid w;
                task_storage := <[tid := t2]> (task_storage w);
                background_tasks := [] |}).
  exists w1, w2, t1, t2.
  assert (Hget : forall (s : gmap string TaskStatus) t w',
             task_storage w' = <[tid := t]> s -> get_task_status tid w' = (Ok t, w')).
  { intros s t w' Hs. unfold get_task_status, bind, get, ret.
    rewrite Hs, lookup_insert_eq. reflexivity. }
  split.
  { unfold send_email, create_task_id, bind, get, ret, modify, set_task_storage,
      set_background_tasks. simpl. rewrite Hq. reflexivity. }
  split; [apply (Hget (task_storage w)); reflexivity|].
  split; [reflexivity|]. split; [reflexivity|].
  split.
  { unfold run_background_tasks. unfold bind at 1, get at 1.
    unfold bind at 1, modify at 1. simpl run_tasks. unfold run_task.
    erewrite bind_Ok.
    2:{ apply send_email_task_present. simpl. apply lookup_insert_eq. }
    unfold ret. simpl. rewrite insert_insert_eq. reflexivity. }
  split; [apply (Hget (task_storage w)); reflexivity|].
  repeat split; reflexivity.
Qed.

Lemma send_email_lifecycle_witness :
  exists w1 w2 t1 t2,
    send_email mail idle_world
    = (Ok (JDict [("message", JStr "Email sending started");
                  ("task_id", JStr "t2"); ("status", JStr "queued")]), w1) /\
    get_task_status "t2" w1 = (Ok t1, w1) /\
    status t1 = "pending" /\ progress t1 = 0.0%float /\
    run_background_tasks w1 = (Ok tt, w2) /\
    get_task_status "t2" w2 = (Ok t2, w2) /\
    status t2 = "completed" /\ progress t2 = 0.9%float /\
    result t2 = Some (email_result mail 3000000) /\
    error t2 = None.
Proof.
  apply (send_email_lifecycle idle_world mail). reflexivity.
Defined.

End TasksProofs.

(** ** The rate limiter *)
Module RateLimitProofs.
Import Middleware.

(** [retry_after] as the client reads it from the body of a response. *)
Definition retry_after (r : Response) : option Z :=
  match content r with
  | JDict d =>
      match List.find (fun kv => String.eqb (fst kv) "retry_after") d with
      | Some (_, JInt n) => Some n
      | _ => None
      end
  | _ => None
  end.

(** The timestamps of [ip] that a check at [t] keeps. *)
Definition kept (self : RateLimitMiddleware) (t : Z) (s : gmap string (list Z)) (ip : string)
  : list Z :=
  filter (fun timestamp => (t - timedelta (period self) < timestamp)%Z) (storage_get s ip).

Lemma filter_all {A} (P : A -> Prop) `{forall x, Decision (P x)} (l : list A) :
  Forall P l -> filter P l = l.
Proof.
  induction 1 as [|x l Hx _ IH]; [reflexivity|].
  rewrite filter_cons_True by assumption. rewrite IH. reflexivity.
Qed.

Lemma Forall_filter_kept {A} (P : A -> Prop) `{forall x, Decision (P x)} (l : list A) :
  Forall P (filter P l).
Proof.
  apply Forall_forall. intros x Hx. apply list_elem_of_filter in Hx. tauto.
Qed.

Lemma storage_get_insert_eq s ip l : storage_get (<[ip := l]> s) ip = l.
Proof. unfold storage_get. rewrite lookup_insert_eq. reflexivity. Qed.

Lemma storage_get_insert_ne s ip ip' l :
  ip <> ip' -> storage_get (<[ip := l]> s) ip' = storage_get s ip'.
Proof. intros Hne. unfold storage_get. rewrite lookup_insert_ne by assumption. reflexivity. Qed.

Lemma status_code_set_header k v r : status_code (set_header k v r) = status_code r.
Proof. reflexivity. Qed.

Section Limiter.

Variable self : RateLimitMiddleware.
Variable call_next : App.

(** The rest of the chain does not touch the limiter's storage... *)
Hypothesis call_next_storage :
  forall request w, rate_limit_storage (snd (call_next request w)) = rate_limit_storage w.

(** ... and a 429 can only be the limiter's. *)
Hypothesis call_next_not_429 :
  forall request w, is_429 (fst (call_next request w)) = false.

Definition limited : App := fun request => RateLimitMiddleware_dispatch self request call_next.

(** One check: either the limiter's own 429 and the pruned list, or the
    answer of the rest of the chain and the pruned list with [t] appended. *)
Lemma serve_limited_storage t request w :
  let ip := client_host request in
  let l := kept self t (rate_limit_storage w) ip in
  exists r w',
    serve limited t request w = (r, w') /\
    if (calls self <=? Z.of_nat (length l))%Z
    then r = Ok (rate_limit_exceeded self) /\
         rate_limit_storage w' = <[ip := l]> (rate_limit_storage w)
    else is_429 r = is_429 (fst (call_next request
                 {| now := t; uuid4 := uuid4 w; process_time := process_time w;
                    timestamp := timestamp w;
                    rate_limit_storage := <[ip := l ++ [t]]> (rate_limit_storage w);
                    state_request_id := None; state_user := None |})) /\
         rate_limit_storage w' = <[ip := l ++ [t]]> (rate_limit_storage w).
Proof.
  intros ip l. unfold serve, limited, RateLimitMiddleware_dispatch.
  unfold bind at 1, get at 1. unfold bind at 1, modify at 1.
  unfold bind at 1, get at 1.
  cbn [now rate_limit_storage set_rate_limit_storage].
  rewrite storage_get_insert_eq. fold ip. fold (kept self t (rate_limit_storage w) ip). fold l.
  destruct (calls self <=? Z.of_nat (length l))%Z eqn:Hfull.
  - eexists _, _. split; [reflexivity|]. split; reflexivity.
  - unfold bind at 1, modify at 1.
    cbn [now rate_limit_storage set_rate_limit_storage uuid4 process_time timestamp
         state_request_id state_user].
    rewrite storage_get_insert_eq, insert_insert_eq.
    unfold set_rate_limit_storage.
    cbn [now rate_limit_storage uuid4 process_time timestamp state_request_id state_user].
    match goal with |- context [bind (call_next request) _ ?w1] => set (w1' := w1) end.
    pose proof (call_next_storage request w1') as Hst.
    unfold bind at 1. destruct (call_next request w1') as [[resp|e] w2] eqn:Hnext.
    + eexists _, _. split; [reflexivity|]. split; [reflexivity|exact Hst].
    + eexists _, _. split; [reflexivity|]. split; [reflexivity|exact Hst].
Qed.

(** The checks fall into one window of length [period] starting at [start]. *)
Definition in_window (start t : Z) : Prop :=
  (start <= t < start + timedelta (period self))%Z.

Lemma kept_in_window start t s ip :
  Forall (in_window start) (storage_get s ip) -> in_window start t ->
  kept self t s ip = storage_get s ip.
Proof.
  intros Hl Ht. unfold kept. apply filter_all.
  eapply Forall_impl; [exact Hl|]. unfold in_window in *. intros x Hx. simpl. lia.
Qed.

Definition same_client (request : Request) (times : list Z) : list (Z * Request) :=
  map (fun t => (t, request)) times.

Lemma serve_all_in_window request start times : forall w,
  let ip := client_host request in
  let N := Z.to_nat (calls self) in
  let l := storage_get (rate_limit_storage w) ip in
  (0 <= calls self)%Z ->
  Forall (in_window start) l ->
  Forall (in_window start) times ->
  (length l <= N)%nat ->
  exists rs w',
    serve_all limited (same_client request times) w = (rs, w') /\
    length rs = length times /\
    storage_get (rate_limit_storage w') ip = l ++ take (N - length l) times /\
    forall i r, rs !! i = Some r ->
      if decide (length l + i < N)%nat then is_429 r = false
      else r = Ok (rate_limit_exceeded self).
Proof.
  induction times as [|t times IH]; intros w ip N l Hcalls Hl Htimes Hlen; subst N.
  - exists [], w. split; [reflexivity|]. split; [reflexivity|].
    split; [rewrite take_nil, app_nil_r; reflexivity|].
    intros i r Hi. rewrite lookup_nil in Hi. discriminate.
  - apply Forall_cons in Htimes as [Ht Htimes].
    destruct (serve_limited_storage t request w) as (r0 & w1 & Hserve & Hcase).
    fold ip in Hcase. rewrite (kept_in_window start) in Hcase by assumption. fold l in Hcase.
    destruct (calls self <=? Z.of_nat (length l))%Z eqn:Hfull.
    + apply Z.leb_le in Hfull. destruct Hcase as [-> Hst].
      assert (Hl1 : storage_get (rate_limit_storage w1) ip = l)
        by (rewrite Hst; apply storage_get_insert_eq).
      destruct (IH w1) as (rs & w' & Hrun & Hlenrs & Hfinal & Hrs); try assumption.
      { fold ip. rewrite Hl1. assumption. }
      { fold ip. rewrite Hl1. assumption. }
      fold ip in Hfinal, Hrs. rewrite Hl1 in Hfinal, Hrs.
      exists (Ok (rate_limit_exceeded self) :: rs), w'.
      split; [simpl; rewrite Hserve, Hrun; reflexivity|].
      split; [simpl; rewrite Hlenrs; reflexivity|].
      split.
      { rewrite Hfinal.
        replace (Z.to_nat (calls self) - length l)%nat with 0%nat by lia. reflexivity. }
      intros i r Hi. destruct (decide (length l + i < Z.to_nat (calls self))%nat) as [Hlt|_]; [lia|].
      destruct i as [|i]; simpl in Hi; [congruence|].
      specialize (Hrs i r Hi). destruct (decide (length l + i < Z.to_nat (calls self))%nat); [lia|assumption].
    + apply Z.leb_gt in Hfull. destruct Hcase as [Hr0 Hst].
      rewrite call_next_not_429 in Hr0.
      assert (Hl1 : storage_get (rate_limit_storage w1) ip = l ++ [t])
        by (rewrite Hst; apply storage_get_insert_eq).
      destruct (IH w1) as (rs & w' & Hrun & Hlenrs & Hfinal & Hrs); try assumption.
      { fold ip. rewrite Hl1. apply Forall_app. split; [assumption|].
        apply Forall_cons. split; [assumption|constructor]. }
      { fold ip. rewrite Hl1, length_app. simpl. lia. }
      fold ip in Hfinal, Hrs. rewrite Hl1 in Hfinal, Hrs.
      rewrite length_app in Hfinal, Hrs. simpl in Hfinal, Hrs.
      exists (r0 :: rs), w'.
      split; [simpl; rewrite Hserve, Hrun; reflexivity|].
      split; [simpl; rewrite Hlenrs; reflexivity|].
      split.
      { rewrite Hfinal, <- app_assoc.
        replace (Z.to_nat (calls self) - length l)%nat
          with (S (Z.to_nat (calls self) - (length l + 1)))%nat by lia.
        reflexivity. }
      intros i r Hi. destruct i as [|i]; simpl in Hi.
      * injection Hi as <-. destruct (decide (length l + 0 < Z.to_nat (calls self))%nat); [assumption|lia].
      * specialize (Hrs i r Hi).
        destruct (decide (length l + 1 + i < Z.to_nat (calls self))%nat);
          destruct (decide (length l + S i < Z.to_nat (calls self))%nat); try lia; assumption.
Qed.

(** C1: with [calls = N] and [period = W], checks of one client that all
    fall within one window of length [W], starting from an empty history of
    that client, are answered as follows: the first [N] are passed on to the
    rest of the chain (the answer is not a 429), every later one gets the
    limiter's 429 with [retry_after = W > 0]; at the end the client's list
    holds exactly the timestamps of the first [N] checks, so a rejected
    check has appended nothing. *)
Theorem rate_limit_admits_exactly_N (request : Request) (times : list Z) (start : Z)
    (w : World) :
  (0 <= calls self)%Z ->
  (0 < period self)%Z ->
  storage_get (rate_limit_storage w) (client_host request) = [] ->
  Forall (in_window start) times ->
  exists rs w',
    serve_all limited (same_client request times) w = (rs, w') /\
    length rs = length times /\
    (forall i r, rs !! i = Some r -> (i < Z.to_nat (calls self))%nat -> is_429 r = false) /\
    (forall i r, rs !! i = Some r -> (Z.to_nat (calls self) <= i)%nat ->
       r = Ok (rate_limit_exceeded self) /\
       exists n, retry_after (rate_limit_exceeded self) = Some n /\ (0 < n)%Z) /\
    storage_get (rate_limit_storage w') (client_host request)
    = take (Z.to_nat (calls self)) times.
Proof.
  intros Hcalls Hperiod Hempty Htimes.
  destruct (serve_all_in_window request start times w) as (rs & w' & Hrun & Hlen & Hfinal & Hrs);
    try assumption.
  { rewrite Hempty. constructor. }
  { rewrite Hempty. simpl. lia. }
  rewrite Hempty in Hfinal, Hrs. simpl in Hfinal, Hrs. rewrite Nat.sub_0_r in Hfinal.
  exists rs, w'. split; [assumption|]. split; [assumption|]. split; [|split].
  - intros i r Hi Hlt. specialize (Hrs i r Hi).
    destruct (decide (i < Z.to_nat (calls self))%nat); [assumption|lia].
  - intros i r Hi Hge. specialize (Hrs i r Hi).
    destruct (decide (i < Z.to_nat (calls self))%nat); [lia|].
    split; [assumption|]. exists (period self). split; [reflexivity|assumption].
  - assumption.
Qed.

Lemma serve_all_app (a : App) (xs ys : list (Z * Request)) : forall w,
  serve_all a (xs ++ ys) w
  = let '(rs, w1) := serve_all a xs w in
    let '(rs', w2) := serve_all a ys w1 in
    (rs ++ rs', w2).
Proof.
  induction xs as [|[t request] xs IH]; intros w; simpl.
  - destruct (serve_all a ys w). reflexivity.
  - destruct (serve a t request w) as [r w1]. rewrite IH.
    destruct (serve_all a xs w1) as [rs w2]. destruct (serve_all a ys w2). reflexivity.
Qed.

(** No list is longer than [calls]. *)
Definition bounded (s : gmap string (list Z)) : Prop :=
  forall ip, (Z.of_nat (length (storage_get s ip)) <= calls self)%Z.

Lemma serve_limited_bounded t request w :
  bounded (rate_limit_storage w) ->
  bounded (rate_limit_storage (snd (serve limited t request w))).
Proof.
  intros Hb ip.
  destruct (serve_limited_storage t request w) as (r & w' & Hserve & Hcase).
  rewrite Hserve. simpl.
  pose proof (length_filter (fun timestamp => (t - timedelta (period self) < timestamp)%Z)
                (storage_get (rate_limit_storage w) (client_host request))) as Hlen.
  fold (kept self t (rate_limit_storage w) (client_host request)) in Hlen.
  specialize (Hb (client_host request)) as Hb0.
  destruct (calls self <=? _)%Z eqn:Hfull; destruct Hcase as [_ ->];
    (destruct (decide (client_host request = ip)) as [<-|Hne];
     [rewrite storage_get_insert_eq | rewrite storage_get_insert_ne by assumption; apply Hb]).
  - lia.
  - apply Z.leb_gt in Hfull. rewrite length_app. simpl. lia.
Qed.

Lemma serve_all_bounded reqs : forall w,
  bounded (rate_limit_storage w) ->
  bounded (rate_limit_storage (snd (serve_all limited reqs w))).
Proof.
  induction reqs as [|[t request] reqs IH]; intros w Hb; simpl; [assumption|].
  pose proof (serve_limited_bounded t request w Hb) as Hb1.
  destruct (serve limited t request w) as [r w1]. simpl in Hb1.
  specialize (IH w1 Hb1). destruct (serve_all limited reqs w1) as [rs w2]. exact IH.
Qed.

Lemma serve_limited_fresh t request w :
  (0 < period self)%Z ->
  Forall (fun timestamp => (t - timedelta (period self) < timestamp)%Z)
    (storage_get (rate_limit_storage (snd (serve limited t request w))) (client_host request)).
Proof.
  intros Hperiod.
  destruct (serve_limited_storage t request w) as (r & w' & Hserve & Hcase).
  rewrite Hserve. simpl.
  destruct (calls self <=? _)%Z; destruct Hcase as [_ ->]; rewrite storage_get_insert_eq.
  - apply Forall_filter_kept.
  - apply Forall_app. split; [apply Forall_filter_kept|].
    apply Forall_cons. split; [|constructor]. unfold timedelta. lia.
Qed.

(** C9: in every state the limiter reaches from an empty storage, whatever
    the clients and clock readings of the requests, after the check of a
    request of client [c] at time [t] every timestamp kept for [c] is
    strictly newer than [t - period], and no client has more than [calls]
    timestamps. *)
Theorem rate_window_invariant (reqs : list (Z * Request)) (t : Z) (request : Request)
    (w : World) :
  (0 <= calls self)%Z ->
  (0 < period self)%Z ->
  rate_limit_storage w = ∅ ->
  let w' := snd (serve_all limited (reqs ++ [(t, request)]) w) in
  Forall (fun timestamp => (t - timedelta (period self) < timestamp)%Z)
    (storage_get (rate_limit_storage w') (client_host request)) /\
  forall ip, (Z.of_nat (length (storage_get (rate_limit_storage w') ip)) <= calls self)%Z.
Proof.
  intros Hcalls Hperiod Hempty w'. split.
  - subst w'. rewrite serve_all_app.
    destruct (serve_all limited reqs w) as [rs w1]. simpl.
    pose proof (serve_limited_fresh t request w1 Hperiod) as Hfresh.
    destruct (serve limited t request w1) as [r w2]. exact Hfresh.
  - apply serve_all_bounded. intros ip. rewrite Hempty.
    unfold storage_get. rewrite lookup_empty. simpl. lia.
Qed.

End Limiter.

(** A limiter of 5 requests per minute in front of a handler that answers
    200, as in the scenario of the specification. *)
Definition five_per_minute : RateLimitMiddleware := {| calls := 5; period := 60 |}.

Definition ok_handler : App :=
  fun _ => ret (JSONResponse 200 (JDict [("message", JStr "Rate limit test")]) ∅).

Definition client_request : Request :=
  {| method := "GET"; url_path := "/rate-limit-test"; req_headers := ∅;
     client_host := "10.0.0.1"; body := NoBody |}.

Definition other_request : Request :=
  {| method := "GET"; url_path := "/"; req_headers := ∅;
     client_host := "10.0.0.2"; body := NoBody |}.

Definition fresh_world : World :=
  {| now := 0; uuid4 := "0000"; process_time := "0.001"; timestamp := utc_timestamp;
     rate_limit_storage := ∅;
     state_request_id := None; state_user := None |}.

Lemma ok_handler_storage request w :
  rate_limit_storage (snd (ok_handler request w)) = rate_limit_storage w.
Proof. reflexivity. Qed.

Lemma ok_handler_not_429 request w : is_429 (fst (ok_handler request w)) = false.
Proof. reflexivity. Qed.

Lemma rate_limit_admits_exactly_N_witness :
  exists rs w',
    serve_all (limited five_per_minute ok_handler)
      (same_client client_request [0; 1000000; 2000000; 3000000; 4000000; 5000000; 59999999]%Z)
      fresh_world = (rs, w') /\
    length rs = 7%nat /\
    (forall i r, rs !! i = Some r -> (i < 5)%nat -> is_429 r = false) /\
    (forall i r, rs !! i = Some r -> (5 <= i)%nat ->
       r = Ok (rate_limit_exceeded five_per_minute) /\
       exists n, retry_after (rate_limit_exceeded five_per_minute) = Some n /\ (0 < n)%Z) /\
    storage_get (rate_limit_storage w') "10.0.0.1"
    = [0; 1000000; 2000000; 3000000; 4000000]%Z.
Proof.
  apply (rate_limit_admits_exactly_N five_per_minute ok_handler
           ok_handler_storage ok_handler_not_429 client_request
           [0; 1000000; 2000000; 3000000; 4000000; 5000000; 59999999]%Z 0%Z fresh_world).
  - simpl. lia.
  - simpl. lia.
  - reflexivity.
  - repeat constructor; unfold timedelta; simpl; lia.
Defined.

Lemma rate_window_invariant_witness :
  let w' := snd (serve_all (limited five_per_minute ok_handler)
                   ([(0%Z, client_request); (10%Z, other_request); (5%Z, client_request)]
                    ++ [(70000000%Z, client_request)]) fresh_world) in
  Forall (fun timestamp => (70000000 - timedelta 60 < timestamp)%Z)
    (storage_get (rate_limit_storage w') "10.0.0.1") /\
  forall ip, (Z.of_nat (length (storage_get (rate_limit_storage w') ip)) <= 5)%Z.
Proof.
  apply (rate_window_invariant five_per_minute ok_handler ok_handler_storage
           [(0%Z, client_request); (10%Z, other_request); (5%Z, client_request)]
           70000000%Z client_request fresh_world).
  - simpl. lia.
  - simpl. lia.
  - reflexivity.
Defined.

End RateLimitProofs.

(** ** The middleware stack *)
Module PipelineProofs.
Import Middleware RateLimitProofs.

(** What [SecurityHeadersMiddleware] adds to a response on the way out. *)
Definition security_headers (response : Response) : Response :=
  set_header "Content-Security-Policy" "default-src 'self'"
    (set_header "Referrer-Policy" "strict-origin-when-cross-origin"
      (set_header "Strict-Transport-Security" "max-age=31536000; includeSubDomains"
        (set_header "X-XSS-Protection" "1; mode=block"
          (set_header "X-Frame-Options" "DENY"
            (set_header "X-Content-Type-Options" "nosniff" response))))).

(** [requires_auth] of [AuthMiddleware.dispatch]. *)
Definition requires_auth (request : Request) : bool :=
  existsb (fun protected => startswith (url_path request) protected) PROTECTED_PATHS.

(** The limiter configured by the file. *)
Definition hundred_per_minute : RateLimitMiddleware := {| calls := 100; period := 60 |}.

Lemma dispatch_rejects self request call_next w :
  let ip := client_host request in
  let l := kept self (now w) (rate_limit_storage w) ip in
  (calls self <= Z.of_nat (length l))%Z ->
  RateLimitMiddleware_dispatch self request call_next w
  = (Ok (rate_limit_exceeded self),
     set_rate_limit_storage (<[ip := l]> (rate_limit_storage w)) w).
Proof.
  intros ip l Hfull. unfold RateLimitMiddleware_dispatch.
  unfold bind at 1, get at 1. unfold bind at 1, modify at 1.
  unfold bind at 1, get at 1.
  cbn [now rate_limit_storage set_rate_limit_storage].
  rewrite storage_get_insert_eq. fold ip. fold (kept self (now w) (rate_limit_storage w) ip).
  fold l. apply Z.leb_le in Hfull. rewrite Hfull. reflexivity.
Qed.

(** The logging layer gets through its reading of the body: the method has
    no body to log, or the body is empty, or it decodes and [json.loads]
    returns or raises [JSONDecodeError]. *)
Definition body_is_read (json_loads : string -> Exc json) (request : Request) : bool :=
  negb (existsb (String.eqb (method request)) ["POST"; "PUT"; "PATCH"])
  || negb (nonempty (body request))
  || match body request with
     | Utf8 text =>
         match json_loads text with
         | Ok _ => true
         | Raise e => is_JSONDecodeError e
         end
     | NoBody | NotUtf8 => false
     end.

(** The answer of the logging layer to an exception of the inner layers. *)
Definition internal_server_error (w : World) : Response :=
  JSONResponse 500
    (JDict [("error", JStr "Internal Server Error");
            ("message", JStr "An error occurred while processing your request");
            ("request_id", JStr (default "unknown" (state_request_id w)))])
    ∅.

Lemma logging_reads json_loads request call_next w :
  body_is_read json_loads request = true ->
  LoggingMiddleware_dispatch json_loads request call_next w
  = match call_next request w with
    | (Ok response, w') => (Ok response, w')
    | (Raise e, w') => (Ok (internal_server_error w'), w')
    end.
Proof.
  unfold body_is_read, LoggingMiddleware_dispatch. intros Hread.
  unfold bind at 1.
  destruct (existsb (String.eqb (method request)) ["POST"; "PUT"; "PATCH"]);
    cbn [negb orb] in Hread.
  - destruct (nonempty (body request)) eqn:Hne; cbn [negb orb] in Hread.
    + destruct (body request) as [|text|]; try discriminate.
      unfold try_except at 1. unfold decode, bind at 1, ret at 1, bind at 1, call.
      destruct (json_loads text) as [value|e]; cbn [ret].
      * unfold try_except. destruct (call_next request w) as [[response|e] w']; reflexivity.
      * rewrite Hread. unfold bind at 1, ret at 1, ret at 1.
        unfold try_except. destruct (call_next request w) as [[response|e'] w']; reflexivity.
    + unfold ret at 1. unfold try_except.
      destruct (call_next request w) as [[response|e] w']; reflexivity.
  - unfold ret at 1. unfold try_except.
    destruct (call_next request w) as [[response|e] w']; reflexivity.
Qed.

Section Order.

Variable json_loads : string -> Exc json.
Variable library_layer : MiddlewareClass -> App -> App.
Variable router : App.

(** The part of the stack that the framework provides. *)
Definition library_stack : App :=
  library_layer SessionMiddleware
    (library_layer TrustedHostMiddleware
      (library_layer GZipMiddleware
        (library_layer CORSMiddleware router))).

Lemma app_layers :
  app json_loads library_layer router
  = fun request => AuthMiddleware_dispatch request
      (fun request => LoggingMiddleware_dispatch json_loads request
        (fun request => SecurityHeadersMiddleware_dispatch request
          (fun request => RateLimitMiddleware_dispatch hundred_per_minute request
            (fun request => TimingMiddleware_dispatch request library_stack)))).
Proof. reflexivity. Qed.

Lemma auth_rejects_first t request w :
  requires_auth request = true ->
  req_headers request !! "Authorization" = None ->
  serve (app json_loads library_layer router) t request w
  = (Ok auth_required,
     {| now := t; uuid4 := uuid4 w; process_time := process_time w;
        timestamp := timestamp w;
        rate_limit_storage := rate_limit_storage w;
        state_request_id := None; state_user := None |}).
Proof.
  intros Hprot Hnone. rewrite app_layers. unfold serve, AuthMiddleware_dispatch.
  fold (requires_auth request). rewrite Hprot, Hnone. reflexivity.
Qed.

Lemma limiter_rejects_before_timing t request w :
  let ip := client_host request in
  let l := kept hundred_per_minute t (rate_limit_storage w) ip in
  requires_auth request = false ->
  body_is_read json_loads request = true ->
  (100 <= Z.of_nat (length l))%Z ->
  serve (app json_loads library_layer router) t request w
  = (Ok (security_headers (rate_limit_exceeded hundred_per_minute)),
     {| now := t; uuid4 := uuid4 w; process_time := process_time w;
        timestamp := timestamp w;
        rate_limit_storage := <[ip := l]> (rate_limit_storage w);
        state_request_id := None; state_user := None |}).
Proof.
  intros ip l Hfree Hbody Hfull. rewrite app_layers. unfold serve, AuthMiddleware_dispatch.
  fold (requires_auth request). rewrite Hfree.
  rewrite logging_reads by exact Hbody.
  unfold SecurityHeadersMiddleware_dispatch.
  match goal with |- context [bind _ _ ?w1] => set (w0 := w1) end.
  rewrite (bind_Ok _ _ _ _ _
             (dispatch_rejects hundred_per_minute request _ w0 Hfull)).
  reflexivity.
Qed.

(** The order in which the layers run.  They are entered in the reverse
    order of the [add_middleware] statements: authentication (outermost),
    logging, security headers, rate limit, request timing, then the library
    layers and the handler.  So the authentication check of a protected path
    rejects before the rate-limit check is reached (the limiter's storage is
    untouched and the 401 carries no security headers), and for a request
    whose body the logging layer gets through, a rate-limit rejection is
    returned, with the security headers, before request timing is reached
    (no request id has been assigned). *)
Lemma middleware_order :
  user_middleware
  = [AuthMiddleware; LoggingMiddleware; SecurityHeadersMiddleware;
     RateLimit hundred_per_minute; TimingMiddleware; SessionMiddleware;
     TrustedHostMiddleware; GZipMiddleware; CORSMiddleware] /\
  (forall t request w,
     requires_auth request = true ->
     req_headers request !! "Authorization" = None ->
     exists w',
       serve (app json_loads library_layer router) t request w = (Ok auth_required, w') /\
       rate_limit_storage w' = rate_limit_storage w /\
       headers auth_required = ∅) /\
  (forall t request w,
     requires_auth request = false ->
     body_is_read json_loads request = true ->
     (100 <= Z.of_nat (length (kept hundred_per_minute t (rate_limit_storage w)
                                 (client_host request))))%Z ->
     exists w',
       serve (app json_loads library_layer router) t request w
       = (Ok (security_headers (rate_limit_exceeded hundred_per_minute)), w') /\
       state_request_id w' = None).
Proof.
  split; [reflexivity|]. split.
  - intros t request w Hprot Hnone. eexists. split; [apply auth_rejects_first; assumption|].
    split; reflexivity.
  - intros t request w Hfree Hbody Hfull. eexists.
    split; [apply limiter_rejects_before_timing; assumption|]. reflexivity.
Qed.

End Order.

(** A stand-in for [json.loads] in the examples: it reads a decimal integer
    literal of at most 4300 digits, raises [ValueError] on a longer one, and
    takes every other text for malformed. *)
Definition is_digit (c : ascii) : bool :=
  let n := nat_of_ascii c in (48 <=? n)%nat && (n <=? 57)%nat.

Fixpoint all_digits (s : string) : bool :=
  match s with
  | EmptyString => true
  | String c rest => is_digit c && all_digits rest
  end.

Definition loads_integer (text : string) : Exc json :=
  match text with
  | EmptyString => Raise JSONDecodeError
  | String c rest =>
      if negb (all_digits text) then Raise JSONDecodeError
      else if Ascii.eqb c "0" && negb (String.eqb rest "") then Raise JSONDecodeError
      else if (4300 <? String.length text)%nat
           then Raise (ValueError "Exceeds the limit (4300 digits) for integer string conversion")
           else match NilZero.uint_of_string text with
                | Some u => Ok (JInt (Z.of_uint u))
                | None => Raise JSONDecodeError
                end
  end.

(** A stack whose library layers pass every request on, around a handler
    that answers 200. *)
Definition plain_library : MiddlewareClass -> App -> App := fun _ a => a.

Definition plain_app (router : App) : App := app loads_integer plain_library router.

Definition protected_request : Request :=
  {| method := "GET"; url_path := "/protected/data"; req_headers := ∅;
     client_host := "10.0.0.1"; body := NoBody |}.

(** The client of [client_request] has used up its budget at time 0. *)
Definition spent_world : World :=
  {| now := 0; uuid4 := "0000"; process_time := "0.001"; timestamp := utc_timestamp;
     rate_limit_storage := {["10.0.0.1" := replicate 100 0%Z]};
     state_request_id := None; state_user := None |}.

(** C4 on the code: the file adds the limiter before the authentication
    layer and notes that middleware executes in the order it is added, but
    the layer added last runs first.  A client that is over its budget and
    sends no credentials to a protected path is answered by the
    authentication layer (401, not the 429 the claim expects), the limiter
    has not seen the request, and the answer has not passed the
    security-headers layer; the limiter alone would have rejected it. *)
Theorem auth_runs_before_rate_limit :
  let '(r, w') := serve (plain_app ok_handler) 1 protected_request spent_world in
  r = Ok auth_required /\
  is_429 r = false /\
  rate_limit_storage w' = rate_limit_storage spent_world /\
  (forall response, r = Ok response -> headers response !! "X-Frame-Options" = None) /\
  is_429 (fst (serve (limited hundred_per_minute ok_handler) 1 protected_request spent_world))
  = true.
Proof.
  vm_compute. repeat split. intros response [= <-]. reflexivity.
Qed.

Lemma middleware_order_witness :
  (exists w',
     serve (plain_app ok_handler) 1 protected_request spent_world
     = (Ok auth_required, w') /\
     rate_limit_storage w' = rate_limit_storage spent_world /\
     headers auth_required = ∅) /\
  (exists w',
     serve (plain_app ok_handler) 1 client_request spent_world
     = (Ok (security_headers (rate_limit_exceeded hundred_per_minute)), w') /\
     state_request_id w' = None).
Proof.
  destruct (middleware_order loads_integer plain_library ok_handler) as (_ & Hauth & Hlimit).
  split.
  - apply (Hauth 1%Z protected_request spent_world); reflexivity.
  - apply (Hlimit 1%Z client_request spent_world).
    + reflexivity.
    + reflexivity.
    + vm_compute. discriminate.
Defined.

End PipelineProofs.

(** ** Tokens, login, refresh and logout *)
Module AuthProofs.
Import Auth.

Section WithLibrary.
Context {lib : Library}.

(** [jwt.decode] finds the token expired. *)
Definition expired (payload : Claims) (w : World) : bool :=
  match get_exp payload with
  | Some e => (e <? utcnow w)%Z
  | None => false
  end.

(** What [verify_token] makes of the claims of a token that has not
    expired. *)
Definition token_data (payload : Claims) (token_type : string) : Exc (option TokenData) :=
  let email := dict_get_json (get_sub payload) in
  let scopes := default (JList []) (get_scopes payload) in
  if is_None email || differs (dict_get_json (get_type payload)) token_type then Ok None
  else match as_str email, as_str_list scopes with
       | Some e, Some l => Ok (Some {| td_email := Some e; td_scopes := l |})
       | _, _ =>
           match TokenData_coerce email scopes with
           | Ok td => Ok (Some td)
           | Raise e => if is_JWTError e then Ok None else Raise e
           end
       end.

(** The outcome of [verify_token], as a function of the token, the expected
    kind and the state. *)
Definition verified (token token_type : string) (w : World) : Exc (option TokenData) :=
  if decide (token ∈ revoked_tokens w) then Ok None
  else match jws_verify token SECRET_KEY with
       | Raise e => if is_JWTError e then Ok None else Raise e
       | Ok payload => if expired payload w then Ok None else token_data payload token_type
       end.

Lemma verify_token_verified token token_type w :
  verify_token token token_type w = (verified token token_type w, w).
Proof.
  unfold verify_token, verified, token_data, try_except, jwt_decode, TokenData_init, expired.
  unfold bind, get, ret, raise, call.
  destruct (decide (token ∈ revoked_tokens w)); [reflexivity|].
  destruct (jws_verify token SECRET_KEY) as [payload|e];
    [|destruct (is_JWTError e); reflexivity].
  destruct (get_exp payload) as [e|]; [destruct (e <? utcnow w)%Z; [reflexivity|]|];
    (destruct (is_None _ || differs _ _); [reflexivity|]);
    (destruct (as_str _); [destruct (as_str_list _); [reflexivity|]|]);
    (destruct (TokenData_coerce _ _) as [td|e']; [reflexivity|]);
    destruct (is_JWTError e'); reflexivity.
Qed.

(** C7 on the code: [verify_token] turns a [JWTError] into [None] and lets
    every other exception out.  For a token that is not revoked, when
    [jwt.decode] raises an exception that is no [JWTError], as python-jose
    does on a deeply nested header, [verify_token] raises it; and when the
    token is well signed, of the expected kind and not expired but its
    scopes are not a list of strings, and pydantic refuses them,
    [verify_token] raises pydantic's error.  The state is unchanged. *)
Theorem verify_token_raises (token token_type : string) (w : World) (e : exn) :
  token ∉ revoked_tokens w ->
  is_JWTError e = false ->
  (jws_verify token SECRET_KEY = Raise e ->
   verify_token token token_type w = (Raise e, w)) /\
  (forall payload email scopes,
     jws_verify token SECRET_KEY = Ok payload ->
     expired payload w = false ->
     get_sub payload = Some (JStr email) ->
     get_type payload = Some (JStr token_type) ->
     get_scopes payload = Some scopes ->
     as_str_list scopes = None ->
     TokenData_coerce (JStr email) scopes = Raise e ->
     verify_token token token_type w = (Raise e, w)).
Proof.
  intros Hrev He. rewrite verify_token_verified. unfold verified.
  destruct (decide (token ∈ revoked_tokens w)); [contradiction|]. split.
  - intros ->. rewrite He. reflexivity.
  - intros payload email scopes -> -> Hsub Htype Hscopes Hlist Hcoerce.
    unfold token_data. rewrite Hsub, Htype, Hscopes. cbn [dict_get_json default from_option Datatypes.id is_None differs].
    rewrite String.eqb_refl. cbn [negb orb as_str]. rewrite Hlist, Hcoerce, He. reflexivity.
Qed.

Definition invalid_credentials : exn :=
  HTTPException 401 "Incorrect email or password" [("WWW-Authenticate", "Bearer")].

(** A login with an email that no user has, and a login with the email of a
    user and a password that [pwd_context.verify] finds wrong, are answered
    alike: both raise the same 401, and neither changes the state. *)
Lemma login_failures_alike (w : World) (unknown known : LoginRequest) (user : UserInDB) :
  find_user_by_email (users_db w) (lr_email unknown) = None ->
  find_user_by_email (users_db w) (lr_email known) = Some user ->
  pwd_verify (lr_password known) (hashed_password user) = Ok false ->
  login unknown w = (Raise invalid_credentials, w) /\
  login known w = (Raise invalid_credentials, w).
Proof.
  intros Hnone Hsome Hwrong. unfold login, authenticate_user, get_user_by_email, verify_password.
  unfold bind, get, ret, raise, call. rewrite Hnone, Hsome, Hwrong. split; reflexivity.
Qed.

(** C8 on the code: the password is only looked at when the email is that
    of a user, and nothing catches what [pwd_context.verify] raises.  A
    login with an email that no user has is answered with the 401 for
    invalid credentials whatever the password, while a login with the email
    of a user and a password that passlib refuses makes [login] raise
    passlib's exception: the two failures differ, and which one is seen
    tells whether the email is registered.  Neither changes the state. *)
Theorem login_failure_tells_email (w : World) (unknown known : LoginRequest) (user : UserInDB)
    (e : exn) :
  find_user_by_email (users_db w) (lr_email unknown) = None ->
  find_user_by_email (users_db w) (lr_email known) = Some user ->
  pwd_verify (lr_password known) (hashed_password user) = Raise e ->
  login unknown w = (Raise invalid_credentials, w) /\
  login known w = (Raise e, w).
Proof.
  intros Hnone Hsome Hraises.
  unfold login, authenticate_user, get_user_by_email, verify_password.
  unfold bind, get, ret, raise, call. rewrite Hnone, Hsome, Hraises. split; reflexivity.
Qed.

(** The dependencies and the body of [logout] never write to the state. *)
Lemma post_auth_logout_state token w : snd (post_auth_logout token w) = w.
Proof.
  unfold post_auth_logout, get_current_user.
  unfold bind at 1. unfold bind at 1. rewrite verify_token_verified.
  destruct (verified token "access" w) as [[td|]|e]; [|reflexivity|reflexivity].
  unfold bind at 1.
  assert (Hlookup : exists u, (match td_email td with
                               | Some e => get_user_by_email e
                               | None => ret None
                               end) w = (Ok u, w)).
  { destruct (td_email td); eexists; reflexivity. }
  destruct Hlookup as [u ->]. destruct u as [u|]; [|reflexivity].
  unfold ret at 1. unfold bind at 1, get_current_active_user.
  destruct (is_active u); reflexivity.
Qed.

Lemma refresh_token_verified token w :
  refresh_token token w
  = match verified token "refresh" w with
    | Raise e => (Raise e, w)
    | Ok None => (Raise (HTTPException 401 "Invalid refresh token" []), w)
    | Ok (Some td) =>
        match from_option (find_user_by_email (users_db w)) None (td_email td) with
        | None => (Raise (HTTPException 401 "User not found" []), w)
        | Some user =>
            (Ok {| access_token :=
                     jwt_encode {| claim_sub := Some (email user);
                                   claim_scopes := Some (scopes user);
                                   claim_type := Some "access";
                                   claim_exp := Some (utcnow w + ACCESS_TOKEN_EXPIRE_MINUTES * 60)%Z |}
                       SECRET_KEY;
                   refresh_token_ :=
                     jwt_encode {| claim_sub := Some (email user);
                                   claim_scopes := None;
                                   claim_type := Some "refresh";
                                   claim_exp := Some (utcnow w + REFRESH_TOKEN_EXPIRE_DAYS * 86400)%Z |}
                       SECRET_KEY;
                   token_type := "bearer";
                   expires_in := (ACCESS_TOKEN_EXPIRE_MINUTES * 60)%Z;
                   token_scopes := scopes user |}, w)
        end
    end.
Proof.
  unfold refresh_token. unfold bind at 1. rewrite verify_token_verified.
  destruct (verified token "refresh" w) as [[td|]|e]; [|reflexivity|reflexivity].
  unfold bind at 1.
  destruct (td_email td) as [e|]; simpl.
  - unfold get_user_by_email, bind at 1, get, ret.
    destruct (find_user_by_email (users_db w) e); reflexivity.
  - reflexivity.
Qed.

(** C2, amended: a successful [refresh] changes nothing in the state, in
    particular it does not revoke the token it was given.  A second call
    with the same refresh token, in any later state with the same users and
    the same revocation set in which the token has not expired, succeeds
    again and grants the same scopes. *)
Theorem refresh_token_reusable (token : string) (w w1 : World) (t : Token) :
  refresh_token token w = (Ok t, w1) ->
  w1 = w /\
  forall w2,
    users_db w2 = users_db w ->
    revoked_tokens w2 = revoked_tokens w ->
    (forall payload, jws_verify token SECRET_KEY = Ok payload -> expired payload w2 = false) ->
    exists t2, refresh_token token w2 = (Ok t2, w2) /\ token_scopes t2 = token_scopes t.
Proof.
  intros Hfirst. rewrite refresh_token_verified in Hfirst.
  destruct (verified token "refresh" w) as [[td|]|e] eqn:Hv; [|discriminate|discriminate].
  destruct (from_option (find_user_by_email (users_db w)) None (td_email td)) as [user|] eqn:Hu;
    [|discriminate].
  injection Hfirst as <- <-. split; [reflexivity|].
  intros w2 Husers Hrevoked Hfresh.
  assert (Hv2 : verified token "refresh" w2 = Ok (Some td)).
  { revert Hv. unfold verified. rewrite Hrevoked.
    destruct (decide (token ∈ revoked_tokens w)); [discriminate|].
    destruct (jws_verify token SECRET_KEY) as [payload|e]; [|trivial].
    rewrite (Hfresh payload eq_refl).
    destruct (expired payload w); [discriminate|]. trivial. }
  rewrite refresh_token_verified, Hv2, Husers, Hu.
  eexists. split; reflexivity.
Qed.

End WithLibrary.

(** A stand-in for the libraries in the examples.
    - It knows the access token and the refresh token issued to the admin
      user at time 0, a token whose header is deeply nested JSON, on which
      python-jose raises [RecursionError], and a token signed with the key of
      the file whose scopes are [null]; every other text is malformed.
    - It hashes a password by tagging it, and like passlib refuses a secret
      that is longer than 4096 characters or has a NUL character in it.
    - Like pydantic 2 it refuses every value that is not of the type of its
      field. *)
Definition admin_access_token : string := "access:admin@example.com".
Definition admin_refresh_token : string := "refresh:admin@example.com".
Definition nested_header_token : string := "W1tbW1tbW1tbW1tb.e30.c2ln".
Definition null_scopes_token : string := "access:admin@example.com:null".

Fixpoint has_nul (s : string) : bool :=
  match s with
  | EmptyString => false
  | String c rest => Ascii.eqb c Ascii.zero || has_nul rest
  end.

Definition refused (secret : string) : option exn :=
  if (4096 <? String.length secret)%nat
  then Some (ValueError "password exceeds maximum allowed size")
  else if has_nul secret
       then Some (ValueError "bcrypt does not allow NULL bytes in password")
       else None.

Definition example_library : Library :=
  {| jwt_encode payload key :=
       (default "" (claim_type payload) ++ ":" ++ default "" (claim_sub payload))%string;
     jws_verify token key :=
       if negb (String.eqb key SECRET_KEY) then Raise JWTError
       else if String.eqb token admin_access_token
       then Ok {| get_sub := Some (JStr "admin@example.com");
                  get_scopes := Some (JList [JStr "read"; JStr "write"; JStr "admin"]);
                  get_type := Some (JStr "access"); get_exp := Some 1800%Z |}
       else if String.eqb token admin_refresh_token
       then Ok {| get_sub := Some (JStr "admin@example.com"); get_scopes := None;
                  get_type := Some (JStr "refresh"); get_exp := Some 604800%Z |}
       else if String.eqb token nested_header_token then Raise RecursionError
       else if String.eqb token null_scopes_token
       then Ok {| get_sub := Some (JStr "admin@example.com"); get_scopes := Some JNull;
                  get_type := Some (JStr "access"); get_exp := Some 1800%Z |}
       else Raise JWTError;
     pwd_hash password :=
       match refused password with
       | Some e => Raise e
       | None => Ok ("bcrypt:" ++ password)%string
       end;
     pwd_verify password hashed :=
       match refused password with
       | Some e => Raise e
       | None => Ok (String.eqb hashed ("bcrypt:" ++ password))
       end;
     TokenData_coerce email scopes := Raise ValidationError |}.

(** The user table after a successful import, empty otherwise. *)
Definition imported {lib : Library} (t0 : Z) : list (Z * UserInDB) :=
  match initial_users_db t0 with
  | Ok db => db
  | Raise _ => []
  end.

(** The process 100 seconds after start-up, nothing revoked. *)
Definition example_world : World :=
  {| utcnow := 100; now := 100000000;
     users_db := imported (lib := example_library) 0;
     revoked_tokens := ∅ |}.

(** C2, as stated, fails: the same refresh token is accepted twice. *)
Lemma refresh_token_accepted_twice :
  let '(r1, w1) := refresh_token (lib := example_library) admin_refresh_token example_world in
  let '(r2, w2) := refresh_token (lib := example_library) admin_refresh_token w1 in
  (exists t1, r1 = Ok t1) /\ (exists t2, r2 = Ok t2) /\
  revoked_tokens w1 = ∅.
Proof.
  vm_compute. split; [eexists; reflexivity|]. split; [eexists; reflexivity|].
  reflexivity.
Qed.

Lemma refresh_token_reusable_witness :
  exists t2,
    refresh_token (lib := example_library) admin_refresh_token example_world
    = (Ok t2, example_world) /\
    token_scopes t2 = ["read"; "write"; "admin"].
Proof.
  assert (Hfirst : exists t,
             refresh_token (lib := example_library) admin_refresh_token example_world
             = (Ok t, example_world) /\ token_scopes t = ["read"; "write"; "admin"])
    by (eexists; split; vm_compute; reflexivity).
  destruct Hfirst as (t & Hfirst & Hscopes).
  destruct (refresh_token_reusable (lib := example_library) admin_refresh_token
              example_world example_world t Hfirst) as [_ Hagain].
  destruct (Hagain example_world eq_refl eq_refl) as (t2 & Hsecond & Hsame).
  - intros payload Hp. vm_compute in Hp. injection Hp as <-. reflexivity.
  - exists t2. split; [exact Hsecond|]. rewrite Hsame. exact Hscopes.
Defined.

(** C3 on the code: a successful logout with the admin's access token leaves
    the revocation set empty, and the token verifies afterwards as before. *)
Theorem logout_leaves_token_valid :
  exists w',
    post_auth_logout (lib := example_library) admin_access_token example_world
    = (Ok (JDict [("message", JStr "Successfully logged out")]), w') /\
    revoked_tokens w' = ∅ /\
    verify_token (lib := example_library) admin_access_token "access" w'
    = (Ok (Some {| td_email := Some "admin@example.com";
                   td_scopes := ["read"; "write"; "admin"] |}), w').
Proof.
  exists example_world. split; [vm_compute; reflexivity|]. split; [reflexivity|].
  vm_compute. reflexivity.
Qed.

Lemma verify_token_raises_witness :
  verify_token (lib := example_library) nested_header_token "access" example_world
  = (Raise RecursionError, example_world) /\
  verify_token (lib := example_library) null_scopes_token "access" example_world
  = (Raise ValidationError, example_world) /\
  verify_token (lib := example_library) "not.a.token" "access" example_world
  = (Ok None, example_world).
Proof.
  split; [|split].
  - apply (verify_token_raises (lib := example_library) nested_header_token "access"
             example_world RecursionError); [apply not_elem_of_empty|reflexivity|reflexivity].
  - apply (verify_token_raises (lib := example_library) null_scopes_token "access"
             example_world ValidationError (not_elem_of_empty _) eq_refl)
      with (payload := {| get_sub := Some (JStr "admin@example.com"); get_scopes := Some JNull;
                          get_type := Some (JStr "access"); get_exp := Some 1800%Z |})
           (email := "admin@example.com") (scopes := JNull); reflexivity.
  - vm_compute. reflexivity.
Defined.

(** A password with a NUL character in it. *)
Definition nul_password : string := String Ascii.zero "x".

Lemma login_failure_tells_email_witness :
  login (lib := example_library)
    {| lr_email := "nobody@example.com"; lr_password := nul_password |} example_world
  = (Raise invalid_credentials, example_world) /\
  login (lib := example_library)
    {| lr_email := "admin@example.com"; lr_password := nul_password |} example_world
  = (Raise (ValueError "bcrypt does not allow NULL bytes in password"), example_world).
Proof.
  apply (login_failure_tells_email (lib := example_library) example_world
           {| lr_email := "nobody@example.com"; lr_password := nul_password |}
           {| lr_email := "admin@example.com"; lr_password := nul_password |}
           {| email := "admin@example.com"; full_name := "Admin User"; is_active := true;
              id := 1; hashed_password := "bcrypt:admin123"; created_at := 0;
              last_login := None; roles := ["admin"]; scopes := ["read"; "write"; "admin"] |});
    reflexivity.
Defined.

End AuthProofs.

(** ** Accounts: registration, login round trips, administration *)
Module AccountsProofs.
Import Auth AuthProofs.

Lemma find_user_dict_set db k (u : UserInDB) :
  find_user_by_email db (email u) = None ->
  find_user_by_email (dict_set db k u) (email u) = Some u.
Proof.
  induction db as [|[k' v'] db IH]; simpl; intros Hnone.
  - rewrite String.eqb_refl. reflexivity.
  - destruct (String.eqb (email v') (email u)) eqn:Hv; [discriminate|].
    destruct (k' =? k)%Z; simpl.
    + rewrite String.eqb_refl. reflexivity.
    + rewrite Hv. apply IH. assumption.
Qed.

Lemma dict_set_fresh {V} (db : list (Z * V)) k v :
  k ∉ map fst db -> dict_set db k v = db ++ [(k, v)].
Proof.
  induction db as [|[k' v'] db IH]; simpl; intros Hk; [reflexivity|].
  apply not_elem_of_cons in Hk as [Hne Hk].
  destruct (k' =? k)%Z eqn:Heq; [apply Z.eqb_eq in Heq; congruence|].
  rewrite IH by assumption. reflexivity.
Qed.

Lemma fold_max_le (ks : list Z) : forall k0,
  (k0 <= fold_left Z.max ks k0)%Z /\ forall k, k ∈ ks -> (k <= fold_left Z.max ks k0)%Z.
Proof.
  induction ks as [|k1 ks IH]; intros k0; simpl.
  - split; [lia|]. intros k Hk. inversion Hk.
  - destruct (IH (Z.max k0 k1)) as [H0 Hrest]. split; [lia|].
    intros k Hk. apply elem_of_cons in Hk as [->|Hk]; [lia|]. apply Hrest. assumption.
Qed.

Lemma max_key_bound {V} (db : list (Z * V)) m :
  max_key db = Some m -> forall k, k ∈ map fst db -> (k <= m)%Z.
Proof.
  destruct db as [|[k0 v0] db]; simpl; [discriminate|].
  intros [= <-] k Hk. destruct (fold_max_le (map fst db) k0) as [H0 Hrest].
  apply elem_of_cons in Hk as [->|Hk]; [assumption|]. apply Hrest. assumption.
Qed.

Lemma max_key_nonempty {V} (db : list (Z * V)) : db <> [] -> is_Some (max_key db).
Proof. destruct db as [|[k v] db]; [congruence|]. intros _. simpl. eauto. Qed.

(** Ids and emails are unique in the user table. *)
Definition well_formed (db : list (Z * UserInDB)) : Prop :=
  NoDup (map fst db) /\ NoDup (map (fun kv => email (snd kv)) db).

Lemma find_user_None db e :
  find_user_by_email db e = None <-> e ∉ map (fun kv => email (snd kv)) db.
Proof.
  induction db as [|[k v] db IH]; simpl.
  - split; [intros _ Hin; inversion Hin|reflexivity].
  - destruct (String.eqb (email v) e) eqn:He.
    + apply String.eqb_eq in He. split; [discriminate|].
      intros Hout. exfalso. apply Hout. rewrite He. apply elem_of_cons. left. reflexivity.
    + apply String.eqb_neq in He. rewrite IH. rewrite not_elem_of_cons. intuition congruence.
Qed.

Lemma find_user_Some db e u :
  find_user_by_email db e = Some u -> email u = e /\ exists k, (k, u) ∈ db.
Proof.
  induction db as [|[k v] db IH]; simpl; [discriminate|].
  destruct (String.eqb (email v) e) eqn:He.
  - intros [= <-]. apply String.eqb_eq in He. split; [assumption|].
    exists k. apply elem_of_cons. left. reflexivity.
  - intros Hf. destruct (IH Hf) as [Hemail [k' Hin]]. split; [assumption|].
    exists k'. apply elem_of_cons. right. assumption.
Qed.

Section WithLibrary.
Context {lib : Library}.

(** What [register_user] does for an email that is free, in a table that is
    not empty, with a password that [pwd_context.hash] accepts. *)
Lemma register_user_new (user : UserCreate) (w : World) (m : Z) (hashed : string) :
  find_user_by_email (users_db w) (uc_email user) = None ->
  max_key (users_db w) = Some m ->
  pwd_hash (uc_password user) = Ok hashed ->
  let new_user :=
    {| email := uc_email user; full_name := uc_full_name user; is_active := true;
       id := m + 1; hashed_password := hashed;
       created_at := now w; last_login := None; roles := ["user"];
       scopes := ["read"; "write"] |} in
  register_user user w
  = (Ok (UserResponse_of new_user),
     set_users_db (users_db w ++ [((m + 1)%Z, new_user)]) w).
Proof.
  intros Hfree Hmax Hhash new_user.
  unfold register_user, get_user_by_email, get_password_hash, bind, get, ret, modify, call.
  rewrite Hfree, Hmax, Hhash. fold new_user.
  rewrite dict_set_fresh; [reflexivity|].
  intros Hin. pose proof (max_key_bound _ _ Hmax _ Hin). lia.
Qed.

(** A password that [pwd_context.hash] refuses: its exception leaves
    [register_user], and nothing is written. *)
Lemma register_user_refused (user : UserCreate) (w : World) (m : Z) (e : exn) :
  find_user_by_email (users_db w) (uc_email user) = None ->
  max_key (users_db w) = Some m ->
  pwd_hash (uc_password user) = Raise e ->
  register_user user w = (Raise e, w).
Proof.
  intros Hfree Hmax Hhash.
  unfold register_user, get_user_by_email, get_password_hash, bind, get, ret, modify, call.
  rewrite Hfree, Hmax, Hhash. reflexivity.
Qed.

(** X1: registration and login compose.  For an email that no user has, in
    a table that is not empty, and a password whose hash verifies it,
    [register_user] succeeds, gives the new user an id above every existing
    id, the role [user] and an active account whatever the request said, and
    a login with the registered email and password then succeeds with the
    scopes read and write. *)
Theorem register_then_login (user : UserCreate) (w : World) (hashed : string) :
  pwd_hash (uc_password user) = Ok hashed ->
  pwd_verify (uc_password user) hashed = Ok true ->
  find_user_by_email (users_db w) (uc_email user) = None ->
  users_db w <> [] ->
  exists r w1 tok w2,
    register_user user w = (Ok r, w1) /\
    ur_email r = uc_email user /\ ur_roles r = ["user"] /\ ur_is_active r = true /\
    (forall k, k ∈ map fst (users_db w) -> (k < ur_id r)%Z) /\
    login {| lr_email := uc_email user; lr_password := uc_password user |} w1 = (Ok tok, w2) /\
    token_scopes tok = ["read"; "write"] /\ token_type tok = "bearer".
Proof.
  intros Hhash Hpwd Hfree Hne.
  destruct (max_key_nonempty (users_db w) Hne) as [m Hmax].
  pose proof (register_user_new user w m hashed Hfree Hmax Hhash) as Hreg. simpl in Hreg.
  eexists _, _, _, _. split; [exact Hreg|].
  split; [reflexivity|]. split; [reflexivity|]. split; [reflexivity|].
  split.
  { intros k Hk. pose proof (max_key_bound _ _ Hmax _ Hk). simpl. lia. }
  unfold login, authenticate_user, get_user_by_email.
  unfold bind at 1. unfold bind at 1. unfold bind at 1. unfold get at 1, ret at 1.
  cbn [users_db set_users_db].
  rewrite <- dict_set_fresh
    by (intros Hin; pose proof (max_key_bound _ _ Hmax _ Hin); lia).
  match goal with |- context [dict_set _ _ ?u] => set (new_user := u) end.
  change (uc_email user) with (email new_user) at 1.
  rewrite find_user_dict_set by exact Hfree.
  cbn [lr_password hashed_password new_user]. unfold verify_password, call.
  unfold bind at 1. rewrite Hpwd. cbn [negb].
  unfold ret at 1. split; [reflexivity|]. split; reflexivity.
Qed.

(** An email that is taken is refused with a 400 and nothing is written. *)
Lemma register_duplicate_email (user : UserCreate) (w : World) (u : UserInDB) :
  find_user_by_email (users_db w) (uc_email user) = Some u ->
  register_user user w
  = (Raise (HTTPException 400 "User with this email already exists" []), w).
Proof.
  intros Htaken. unfold register_user, get_user_by_email, bind, get, ret, raise.
  rewrite Htaken. reflexivity.
Qed.

(** X2: when every user has been deleted, registration does not answer with
    an HTTP error: [max] of the empty key set raises, for every request. *)
Theorem register_in_empty_table (user : UserCreate) (w : World) :
  users_db w = [] ->
  register_user user w = (Raise ValueError_max, w).
Proof.
  intros Hempty. unfold register_user, get_user_by_email, bind, get, ret, raise.
  rewrite Hempty. simpl. rewrite Hempty. reflexivity.
Qed.

Lemma dict_remove_well_formed db k : well_formed db -> well_formed (dict_remove db k).
Proof.
  unfold well_formed. induction db as [|[k' v'] db IH]; simpl; [tauto|].
  intros [Hk He]. apply NoDup_cons in Hk as [Hk1 Hk2]. apply NoDup_cons in He as [He1 He2].
  destruct (k' =? k)%Z; [split; assumption|].
  destruct (IH (conj Hk2 He2)) as [IHk IHe]. simpl. split; apply NoDup_cons; split; try assumption.
  - intros Hin. apply Hk1. clear -Hin. induction db as [|[k2 v2] db IHdb]; simpl in *; [assumption|].
    destruct (k2 =? k)%Z; [apply elem_of_cons; right; assumption|].
    apply elem_of_cons in Hin as [->|Hin]; apply elem_of_cons; [left; reflexivity|right; auto].
  - intros Hin. apply He1. clear -Hin. induction db as [|[k2 v2] db IHdb]; simpl in *; [assumption|].
    destruct (k2 =? k)%Z; [apply elem_of_cons; right; assumption|].
    apply elem_of_cons in Hin as [->|Hin]; apply elem_of_cons; [left; reflexivity|right; auto].
Qed.

Lemma set_last_login_keys db e t : map fst (set_last_login db e t) = map fst db.
Proof.
  induction db as [|[k v] db IH]; simpl; [reflexivity|].
  destruct (String.eqb (email v) e); simpl; [reflexivity|]. rewrite IH. reflexivity.
Qed.

Lemma set_last_login_emails db e t :
  map (fun kv => email (snd kv)) (set_last_login db e t) = map (fun kv => email (snd kv)) db.
Proof.
  induction db as [|[k v] db IH]; simpl; [reflexivity|].
  destruct (String.eqb (email v) e); simpl; [reflexivity|]. rewrite IH. reflexivity.
Qed.

(** The state [login] leaves and the token it returns, for a user that is
    found and a password that verifies. *)
Lemma login_success (lr : LoginRequest) (w : World) (u : UserInDB) :
  find_user_by_email (users_db w) (lr_email lr) = Some u ->
  pwd_verify (lr_password lr) (hashed_password u) = Ok true ->
  login lr w
  = (Ok {| access_token :=
             jwt_encode {| claim_sub := Some (email u); claim_scopes := Some (scopes u);
                           claim_type := Some "access";
                           claim_exp := Some (utcnow w + ACCESS_TOKEN_EXPIRE_MINUTES * 60)%Z |}
               SECRET_KEY;
           refresh_token_ :=
             jwt_encode {| claim_sub := Some (email u); claim_scopes := None;
                           claim_type := Some "refresh";
                           claim_exp := Some (utcnow w + REFRESH_TOKEN_EXPIRE_DAYS * 86400)%Z |}
               SECRET_KEY;
           token_type := "bearer"; expires_in := (ACCESS_TOKEN_EXPIRE_MINUTES * 60)%Z;
           token_scopes := scopes u |},
     set_users_db (set_last_login (users_db w) (email u) (now w)) w).
Proof.
  intros Hfound Hpwd. unfold login, authenticate_user, get_user_by_email, verify_password.
  unfold bind, get, ret, modify, call, create_access_token, create_refresh_token.
  rewrite Hfound, Hpwd. reflexivity.
Qed.

(** A login that does not succeed leaves the state as it was. *)
Lemma login_failure_state (lr : LoginRequest) (w : World) (e : exn) (w' : World) :
  login lr w = (Raise e, w') -> w' = w.
Proof.
  unfold login, authenticate_user, get_user_by_email, verify_password.
  unfold bind, get, ret, raise, modify, call, create_access_token, create_refresh_token.
  destruct (find_user_by_email (users_db w) (lr_email lr)) as [u|]; [|intros [= _ <-]; reflexivity].
  destruct (pwd_verify (lr_password lr) (hashed_password u)) as [[|]|e'];
    cbn [negb]; [discriminate|intros [= _ <-]; reflexivity|intros [= _ <-]; reflexivity].
Qed.

Lemma initial_users_db_well_formed (t0 : Z) (db : list (Z * UserInDB)) :
  initial_users_db t0 = Ok db -> well_formed db.
Proof.
  unfold initial_users_db.
  destruct (pwd_hash "admin123") as [hashed_admin|]; [|discriminate].
  destruct (pwd_hash "user123") as [hashed_user|]; [|discriminate].
  intros [= <-].
  split; simpl; repeat (apply NoDup_cons; split); try apply NoDup_nil;
    rewrite ?not_elem_of_cons; repeat split; try discriminate; apply not_elem_of_nil.
Qed.

(** X3: ids and emails stay unique.  The table the file starts with has
    unique ids and emails, and [register_user], [login] and [delete_user]
    each leave a table with unique ids and emails when they find one,
    whatever their arguments and whether they succeed or raise. *)
Theorem users_stay_unique (t0 : Z) (w : World) :
  (forall db, initial_users_db t0 = Ok db -> well_formed db) /\
  (well_formed (users_db w) ->
   (forall user, well_formed (users_db (snd (register_user user w)))) /\
   (forall lr, well_formed (users_db (snd (login lr w)))) /\
   (forall user_id admin, well_formed (users_db (snd (delete_user user_id admin w))))).
Proof.
  split; [apply initial_users_db_well_formed|].
  intros Hwf. split; [|split].
  - intros user. destruct (find_user_by_email (users_db w) (uc_email user)) as [u|] eqn:Hfind.
    + rewrite (register_duplicate_email user w u Hfind). exact Hwf.
    + destruct (max_key (users_db w)) as [m|] eqn:Hmax.
      * destruct (pwd_hash (uc_password user)) as [hashed|e] eqn:Hhash;
          [|rewrite (register_user_refused user w m e Hfind Hmax Hhash); exact Hwf].
        rewrite (register_user_new user w m hashed Hfind Hmax Hhash). simpl.
        destruct Hwf as [Hk He]. split; rewrite map_app; simpl; apply NoDup_app.
        -- split; [assumption|]. split; [|apply NoDup_singleton].
           intros k Hk1 Hk2. apply list_elem_of_singleton in Hk2 as ->.
           pose proof (max_key_bound _ _ Hmax _ Hk1). lia.
        -- split; [assumption|]. split; [|apply NoDup_singleton].
           intros e He1 He2. apply list_elem_of_singleton in He2 as ->.
           apply find_user_None in Hfind. contradiction.
      * unfold register_user, get_user_by_email, bind, get, ret, raise.
        rewrite Hfind, Hmax. exact Hwf.
  - intros lr. destruct (login lr w) as [[tok|e] w'] eqn:Hlogin.
    + revert Hlogin.
      unfold login, authenticate_user, get_user_by_email, verify_password.
      unfold bind, get, ret, raise, modify, call, create_access_token, create_refresh_token.
      destruct (find_user_by_email (users_db w) (lr_email lr)) as [u|]; [|discriminate].
      destruct (pwd_verify (lr_password lr) (hashed_password u)) as [[|]|e'];
        cbn [negb]; [|discriminate|discriminate].
      intros [= _ <-]. simpl. unfold well_formed.
      rewrite set_last_login_keys, set_last_login_emails. exact Hwf.
    + apply login_failure_state in Hlogin as ->. exact Hwf.
  - intros user_id admin. unfold delete_user, bind, get, ret, raise, modify.
    destruct (dict_get (users_db w) user_id); simpl; [|exact Hwf].
    apply dict_remove_well_formed. exact Hwf.
Qed.

(** The claims a decoder reads from a dict that the file encoded. *)
Definition decoded (p : Payload) : Claims :=
  {| get_sub := JStr <$> claim_sub p;
     get_scopes := (fun l => JList (JStr <$> l)) <$> claim_scopes p;
     get_type := JStr <$> claim_type p;
     get_exp := claim_exp p |}.

Lemma as_str_list_strings (l : list string) : as_str_list (JList (JStr <$> l)) = Some l.
Proof.
  unfold as_str_list. induction l as [|x l IH]; [reflexivity|].
  cbn. cbn in IH. rewrite IH. reflexivity.
Qed.

(** [verify_token] on a token this server encoded, when the library decodes
    what it encodes and nothing is revoked. *)
Lemma verified_encoded (payload : Payload) (ty : string) (w : World) :
  (forall p k, jws_verify (jwt_encode p k) k = Ok (decoded p)) ->
  revoked_tokens w = ∅ ->
  verified (jwt_encode payload SECRET_KEY) ty w
  = Ok (if expired (decoded payload) w then None
        else match claim_sub payload with
             | None => None
             | Some _ =>
                 if bool_decide (claim_type payload = Some ty)
                 then Some {| td_email := claim_sub payload;
                              td_scopes := default [] (claim_scopes payload) |}
                 else None
             end).
Proof.
  intros Hjose Hrev. unfold verified. rewrite Hrev, Hjose.
  destruct (decide (jwt_encode payload SECRET_KEY ∈ (∅ : gset string))) as [Hin|_];
    [exfalso; revert Hin; apply not_elem_of_empty|].
  destruct (expired (decoded payload) w); [reflexivity|].
  unfold token_data. destruct payload as [sub sc kind ex].
  destruct sub as [sub|]; [|reflexivity].
  destruct kind as [kind|]; destruct sc as [sc|];
    cbn [decoded get_sub get_scopes get_type claim_sub claim_scopes claim_type fmap option_fmap
         option_map dict_get_json default from_option Datatypes.id is_None orb as_str differs];
    rewrite ?as_str_list_strings;
    try (rewrite bool_decide_eq_false_2 by discriminate; reflexivity);
    (destruct (String.eqb kind ty) eqn:Hkind; cbn [negb];
     [apply String.eqb_eq in Hkind as ->; rewrite bool_decide_eq_true_2 by reflexivity;
      reflexivity
     |apply String.eqb_neq in Hkind; rewrite bool_decide_eq_false_2 by congruence;
      reflexivity]).
Qed.

Lemma get_current_user_verified token w :
  get_current_user token w
  = match verified token "access" w with
    | Raise e => (Raise e, w)
    | Ok None => (Raise credentials_exception, w)
    | Ok (Some td) =>
        match from_option (find_user_by_email (users_db w)) None (td_email td) with
        | None => (Raise credentials_exception, w)
        | Some u => (Ok u, w)
        end
    end.
Proof.
  unfold get_current_user. unfold bind at 1. rewrite verify_token_verified.
  destruct (verified token "access" w) as [[td|]|e]; [|reflexivity|reflexivity].
  unfold bind at 1. destruct (td_email td) as [e|]; simpl.
  - unfold get_user_by_email, bind, get, ret.
    destruct (find_user_by_email (users_db w) e); reflexivity.
  - reflexivity.
Qed.

Lemma find_user_set_last_login db e t u :
  find_user_by_email db e = Some u ->
  exists u', find_user_by_email (set_last_login db e t) e = Some u' /\
             email u' = email u /\ scopes u' = scopes u /\ roles u' = roles u /\
             last_login u' = Some t.
Proof.
  induction db as [|[k v] db IH]; simpl; [discriminate|].
  destruct (String.eqb (email v) e) eqn:He.
  - intros [= <-]. simpl. rewrite He. eexists. split; [reflexivity|]. repeat split.
  - intros Hf. simpl. rewrite He. apply IH. assumption.
Qed.

(** X4: the tokens [login] returns verify as what they are.  When the
    library decodes what it encodes and nothing is revoked, after a
    successful login the access token verifies as an access token with the
    user's email and scopes and resolves to the user, whose [last_login] is
    now set; the refresh token verifies as a refresh token; and the access
    token is refused where a refresh token is expected. *)
Theorem login_tokens_verify (lr : LoginRequest) (w : World) (u : UserInDB) :
  (forall p k, jws_verify (jwt_encode p k) k = Ok (decoded p)) ->
  revoked_tokens w = ∅ ->
  find_user_by_email (users_db w) (lr_email lr) = Some u ->
  pwd_verify (lr_password lr) (hashed_password u) = Ok true ->
  exists tok w1,
    login lr w = (Ok tok, w1) /\
    verify_token (access_token tok) "access" w1
    = (Ok (Some {| td_email := Some (email u); td_scopes := scopes u |}), w1) /\
    verify_token (refresh_token_ tok) "refresh" w1
    = (Ok (Some {| td_email := Some (email u); td_scopes := [] |}), w1) /\
    refresh_token (access_token tok) w1
    = (Raise (HTTPException 401 "Invalid refresh token" []), w1) /\
    exists u', get_current_user (access_token tok) w1 = (Ok u', w1) /\
               email u' = email u /\ last_login u' = Some (now w).
Proof.
  intros Hjose Hrev Hfound Hpwd.
  eexists _, _. split; [apply login_success; eassumption|].
  set (w1 := set_users_db (set_last_login (users_db w) (email u) (now w)) w).
  assert (Hrev1 : revoked_tokens w1 = ∅) by exact Hrev.
  cbn [access_token refresh_token_].
  assert (Hacc : forall ty,
             verified (jwt_encode {| claim_sub := Some (email u); claim_scopes := Some (scopes u);
                                     claim_type := Some "access";
                                     claim_exp := Some (utcnow w + ACCESS_TOKEN_EXPIRE_MINUTES * 60)%Z |}
                         SECRET_KEY) ty w1
             = Ok (if bool_decide (Some "access" = Some ty)
                   then Some {| td_email := Some (email u); td_scopes := scopes u |}
                   else None)).
  { intros ty. rewrite verified_encoded by assumption. unfold expired. cbn.
    replace (utcnow w + ACCESS_TOKEN_EXPIRE_MINUTES * 60 <? utcnow w)%Z with false
      by (symmetry; apply Z.ltb_ge; unfold ACCESS_TOKEN_EXPIRE_MINUTES; lia).
    reflexivity. }
  split; [rewrite verify_token_verified, Hacc; reflexivity|].
  split.
  { rewrite verify_token_verified, verified_encoded by assumption. unfold expired. cbn.
    replace (utcnow w + REFRESH_TOKEN_EXPIRE_DAYS * 86400 <? utcnow w)%Z with false
      by (symmetry; apply Z.ltb_ge; unfold REFRESH_TOKEN_EXPIRE_DAYS; lia).
    reflexivity. }
  split; [rewrite refresh_token_verified, Hacc; reflexivity|].
  rewrite get_current_user_verified, Hacc.
  rewrite bool_decide_eq_true_2 by reflexivity.
  cbn [td_email from_option]. subst w1. cbn [users_db set_users_db].
  destruct (find_user_by_email (users_db w) (lr_email lr)) as [u0|] eqn:Hf; [|discriminate].
  injection Hfound as ->.
  destruct (find_user_Some _ _ _ Hf) as [Hemail _].
  rewrite <- Hemail in Hf.
  destruct (find_user_set_last_login _ _ (now w) _ Hf) as (u' & Hf' & He' & _ & _ & Hl').
  rewrite Hf'. exists u'. split; [reflexivity|]. split; assumption.
Qed.

(** X5: how long an access token lasts.  A token made by
    [create_access_token] at time [t] with lifetime [d] verifies as an access
    token at every clock reading up to and including [t + d] and at none
    after; without a lifetime, or with a lifetime of zero, which Python
    treats as false, it lasts 15 minutes. *)
Theorem access_token_lifetime (data : Payload) (delta : option Z) (w w' : World)
    (e : string) :
  (forall p k, jws_verify (jwt_encode p k) k = Ok (decoded p)) ->
  revoked_tokens w' = ∅ ->
  claim_sub data = Some e ->
  let life := match delta with
              | Some d => if (d =? 0)%Z then 900%Z else d
              | None => 900%Z
              end in
  exists tok,
    create_access_token data delta w = (Ok tok, w) /\
    verify_token tok "access" w'
    = (Ok (if (utcnow w' <=? utcnow w + life)%Z
           then Some {| td_email := Some e; td_scopes := default [] (claim_scopes data) |}
           else None), w').
Proof.
  intros Hjose Hrev Hsub life. eexists. split; [reflexivity|].
  rewrite verify_token_verified, verified_encoded by assumption.
  unfold expired. cbn [decoded get_exp claim_exp claim_sub claim_type claim_scopes].
  rewrite Hsub.
  rewrite bool_decide_eq_true_2 by reflexivity.
  assert (Hexp : match delta with
                 | Some d => if (d =? 0)%Z then (utcnow w + 15 * 60)%Z else (utcnow w + d)%Z
                 | None => (utcnow w + 15 * 60)%Z
                 end = (utcnow w + life)%Z).
  { subst life. destruct delta as [d|]; [destruct (d =? 0)%Z|]; reflexivity. }
  rewrite Hexp.
  destruct (utcnow w' <=? utcnow w + life)%Z eqn:Hle.
  - apply Z.leb_le in Hle. replace (utcnow w + life <? utcnow w')%Z with false
      by (symmetry; apply Z.ltb_ge; lia). reflexivity.
  - apply Z.leb_gt in Hle. replace (utcnow w + life <? utcnow w')%Z with true
      by (symmetry; apply Z.ltb_lt; lia). reflexivity.
Qed.

Lemma existsb_eqb_elem (x : string) (l : list string) :
  existsb (String.eqb x) l = true <-> x ∈ l.
Proof.
  rewrite existsb_exists. split.
  - intros (y & Hy & Heq). apply String.eqb_eq in Heq as <-. apply list_elem_of_In. assumption.
  - intros Hx. exists x. split; [apply list_elem_of_In; assumption|apply String.eqb_refl].
Qed.

(** X6: the OAuth2 login grants no scope the user lacks.  When
    [login_oauth2] succeeds, the scopes it grants are exactly the requested
    scopes that the user has, the access token is encoded with these scopes,
    and, unlike [login], it leaves the state as it was. *)
Theorem login_oauth2_scopes (form_data : OAuth2PasswordRequestForm) (w w' : World)
    (tok : Token) :
  login_oauth2 form_data w = (Ok tok, w') ->
  w' = w /\
  exists u,
    find_user_by_email (users_db w) (username form_data) = Some u /\
    (forall s, s ∈ token_scopes tok <-> s ∈ form_scopes form_data /\ s ∈ scopes u) /\
    access_token tok
    = jwt_encode {| claim_sub := Some (email u); claim_scopes := Some (token_scopes tok);
                    claim_type := Some "access";
                    claim_exp := Some (utcnow w + ACCESS_TOKEN_EXPIRE_MINUTES * 60)%Z |}
        SECRET_KEY.
Proof.
  unfold login_oauth2, authenticate_user, get_user_by_email, verify_password.
  unfold bind, get, ret, raise, call, create_access_token, create_refresh_token.
  destruct (find_user_by_email (users_db w) (username form_data)) as [u|]; [|discriminate].
  destruct (pwd_verify (password form_data) (hashed_password u)) as [[|]|e];
    [|discriminate|discriminate].
  cbn. intros [= <- <-]. split; [reflexivity|]. exists u. split; [reflexivity|].
  split; [|reflexivity]. intros s. cbn [token_scopes].
  rewrite list_elem_of_In, filter_In, existsb_eqb_elem, <- list_elem_of_In. reflexivity.
Qed.

Lemma current_active_user_verified token w :
  current_active_user token w
  = match get_current_user token w with
    | (Ok u, _) =>
        if is_active u then (Ok u, w) else (Raise (HTTPException 400 "Inactive user" []), w)
    | (Raise e, _) => (Raise e, w)
    end.
Proof.
  unfold current_active_user, bind. rewrite get_current_user_verified.
  destruct (verified token "access" w) as [[td|]|e]; [|reflexivity|reflexivity].
  destruct (from_option _ _ _) as [u|]; [|reflexivity].
  unfold get_current_active_user. destruct (is_active u); reflexivity.
Qed.

(** X7: only an active administrator deletes a user.  When
    [DELETE /admin/users/{user_id}] succeeds, the bearer token verified as an
    access token of a user who is active and has the role [admin], the id
    was in the table, and what is left is the table without that id; in
    every other case the request raises and the state is as before. *)
Theorem delete_needs_active_admin (token : string) (user_id : Z) (w w' : World)
    (r : Exc json) :
  delete_admin_users token user_id w = (r, w') ->
  match r with
  | Ok _ =>
      exists td admin victim,
        verified token "access" w = Ok (Some td) /\
        from_option (find_user_by_email (users_db w)) None (td_email td) = Some admin /\
        is_active admin = true /\ "admin" ∈ roles admin /\
        dict_get (users_db w) user_id = Some victim /\
        w' = set_users_db (dict_remove (users_db w) user_id) w
  | Raise _ => w' = w
  end.
Proof.
  unfold delete_admin_users. unfold bind at 1. rewrite current_active_user_verified.
  rewrite get_current_user_verified.
  destruct (verified token "access" w) as [[td|]|e] eqn:Hv;
    [|intros [= <- <-]; reflexivity|intros [= <- <-]; reflexivity].
  destruct (from_option _ _ _) as [admin|] eqn:Hu; [|intros [= <- <-]; reflexivity].
  destruct (is_active admin) eqn:Hactive; [|intros [= <- <-]; reflexivity].
  unfold bind at 1, require_role.
  destruct (existsb (String.eqb "admin") (roles admin)) eqn:Hrole;
    [|intros [= <- <-]; reflexivity].
  cbn [negb]. unfold ret at 1. unfold delete_user, bind, get, ret, raise, modify.
  destruct (dict_get (users_db w) user_id) as [victim|] eqn:Hvictim;
    [|intros [= <- <-]; reflexivity].
  intros [= <- <-]. exists td, admin, victim.
  apply existsb_eqb_elem in Hrole. repeat split; assumption.
Qed.

Lemma dict_get_email_in db k (u : UserInDB) :
  dict_get db k = Some u -> email u ∈ map (fun kv => email (snd kv)) db.
Proof.
  induction db as [|[k' v'] db IH]; simpl; [discriminate|].
  destruct (k' =? k)%Z.
  - intros [= ->]. apply elem_of_cons. left. reflexivity.
  - intros Hg. apply elem_of_cons. right. apply IH. assumption.
Qed.

Lemma find_user_after_remove db k (u : UserInDB) :
  NoDup (map (fun kv => email (snd kv)) db) ->
  dict_get db k = Some u ->
  find_user_by_email (dict_remove db k) (email u) = None.
Proof.
  induction db as [|[k' v'] db IH]; simpl; [discriminate|].
  intros Hnd Hg. apply NoDup_cons in Hnd as [Hhead Hnd].
  destruct (k' =? k)%Z.
  - injection Hg as ->. apply find_user_None. assumption.
  - simpl. pose proof (dict_get_email_in _ _ _ Hg) as Hin.
    destruct (String.eqb (email v') (email u)) eqn:He.
    + apply String.eqb_eq in He. rewrite He in Hhead. contradiction.
    + apply IH; assumption.
Qed.

Lemma dict_get_after_remove {V} (db : list (Z * V)) k :
  NoDup (map fst db) -> dict_get (dict_remove db k) k = None.
Proof.
  induction db as [|[k' v'] db IH]; simpl; [reflexivity|].
  intros Hnd. apply NoDup_cons in Hnd as [Hhead Hnd].
  destruct (k' =? k)%Z eqn:Hk.
  - apply Z.eqb_eq in Hk as ->. clear IH Hnd.
    induction db as [|[k2 v2] db IHdb]; simpl; [reflexivity|].
    apply not_elem_of_cons in Hhead as [Hne Hhead]. simpl in Hne.
    destruct (k2 =? k)%Z eqn:Hk2; [apply Z.eqb_eq in Hk2; congruence|].
    apply IHdb. assumption.
  - simpl. rewrite Hk. apply IH. assumption.
Qed.

(** X8: deleting a user locks the user out.  In a table with unique emails,
    once [delete_user] has removed a user, every access token whose subject
    is that user's email is refused by [get_current_user] with the 401
    for credentials, although the token itself still verifies. *)
Theorem deleted_user_is_locked_out (w : World) (user_id : Z) (admin victim : UserInDB)
    (token : string) (td : TokenData) :
  well_formed (users_db w) ->
  dict_get (users_db w) user_id = Some victim ->
  verified token "access" w = Ok (Some td) ->
  td_email td = Some (email victim) ->
  exists r w1,
    delete_user user_id admin w = (Ok r, w1) /\
    verify_token token "access" w1 = (Ok (Some td), w1) /\
    get_current_user token w1 = (Raise credentials_exception, w1).
Proof.
  intros [_ Hemails] Hvictim Hv Hsub.
  eexists _, _. split.
  { unfold delete_user, bind, get, ret, modify. rewrite Hvictim. reflexivity. }
  set (w1 := set_users_db (dict_remove (users_db w) user_id) w).
  assert (Hv1 : verified token "access" w1 = Ok (Some td)) by exact Hv.
  split; [rewrite verify_token_verified, Hv1; reflexivity|].
  rewrite get_current_user_verified, Hv1, Hsub. cbn [from_option].
  subst w1. cbn [users_db set_users_db].
  rewrite find_user_after_remove by assumption. reflexivity.
Qed.

(** **** API keys *)

(** X9: [GET /auth/profile] never falls back to the API key.  If the
    bearer credential does not verify as an access token, the request is
    refused with the 401 of [get_current_user], whatever [get_api_key_user]
    makes of the same credential and without any change of state. *)
Theorem profile_needs_access_token (cred : string) (w : KeyWorld) :
  verified cred "access" (base w) = Ok None ->
  get_user_profile cred w = (Raise credentials_exception, w).
Proof.
  intros Hv. unfold get_user_profile. unfold bind at 1, lift.
  rewrite get_current_user_verified, Hv. destruct w; reflexivity.
Qed.

(** The key [create_api_key] stores and returns. *)
Definition created_key (api_key_data : APIKeyCreate) (current_user : UserInDB) (w : KeyWorld)
  : APIKey :=
  {| ak_key := ("api_" ++ token_urlsafe w)%string; ak_name := akc_name api_key_data;
     ak_user_id := id current_user;
     ak_scopes := List.filter (fun scope => existsb (String.eqb scope) (scopes current_user))
                    (akc_scopes api_key_data);
     ak_is_active := true; ak_created_at := now (base w);
     ak_expires_at := match akc_expires_days api_key_data with
                      | Some d => if (d =? 0)%Z then None
                                  else Some (now (base w) + timedelta_days d)%Z
                      | None => None
                      end |}.

Lemma create_api_key_created api_key_data current_user w :
  create_api_key api_key_data current_user w
  = (Ok (created_key api_key_data current_user w),
     set_api_keys_db (<[("api_" ++ token_urlsafe w)%string := created_key api_key_data current_user w]>
                        (api_keys_db w)) w).
Proof. reflexivity. Qed.

(** Later states: the clock may have moved, users and keys are the same. *)
Definition later (w1 w2 : KeyWorld) : Prop :=
  users_db (base w2) = users_db (base w1) /\ api_keys_db w2 = api_keys_db w1.

(** X10: an API key authenticates its owner until it expires.  The key that
    [create_api_key] returns carries only scopes the user has.  In any later
    state with the same users and keys, [get_api_key_user] on that key
    returns the user with the owner's id, at every clock reading when the key
    was created without [expires_days] or with [expires_days = 0], and
    otherwise exactly while the clock has not passed creation time plus that
    many days. *)
Theorem api_key_round_trip (api_key_data : APIKeyCreate) (current_user : UserInDB)
    (w w1 w2 : KeyWorld) (k : APIKey) :
  create_api_key api_key_data current_user w = (Ok k, w1) ->
  later w1 w2 ->
  (forall s, s ∈ ak_scopes k -> s ∈ scopes current_user) /\
  get_api_key_user (ak_key k) w2
  = (Ok (match akc_expires_days api_key_data with
         | Some d =>
             if (d =? 0)%Z then dict_get (users_db (base w)) (id current_user)
             else if (now (base w2) <=? now (base w) + timedelta_days d)%Z
                  then dict_get (users_db (base w)) (id current_user)
                  else None
         | None => dict_get (users_db (base w)) (id current_user)
         end), w2).
Proof.
  rewrite create_api_key_created. intros [= <- <-] [Husers Hkeys]. split.
  - intros s Hs. cbn [ak_scopes created_key] in Hs.
    apply list_elem_of_In, filter_In in Hs as [_ Hs]. apply existsb_eqb_elem. assumption.
  - unfold get_api_key_user, bind, get, ret. rewrite Hkeys, Husers.
    cbn [api_keys_db set_api_keys_db base ak_key created_key].
    rewrite lookup_insert_eq.
    cbn [ak_is_active ak_expires_at ak_user_id created_key negb].
    destruct (akc_expires_days api_key_data) as [d|]; [|reflexivity].
    destruct (d =? 0)%Z; [reflexivity|].
    destruct (now (base w2) <=? now (base w) + timedelta_days d)%Z eqn:Hle.
    + apply Z.leb_le in Hle.
      replace (now (base w) + timedelta_days d <? now (base w2))%Z with false
        by (symmetry; apply Z.ltb_ge; lia). reflexivity.
    + apply Z.leb_gt in Hle.
      replace (now (base w) + timedelta_days d <? now (base w2))%Z with true
        by (symmetry; apply Z.ltb_lt; lia). reflexivity.
Qed.

(** X11: only the owner deletes an API key.  [delete_api_key] answers 404
    for a key that is not stored and 403 for the key of another user, both
    without a change; for the owner it removes the key, after which
    [get_api_key_user] on it returns [None]. *)
Theorem delete_api_key_owner_only (key_id : string) (current_user : UserInDB) (w : KeyWorld) :
  match api_keys_db w !! key_id with
  | None =>
      delete_api_key key_id current_user w
      = (Raise (HTTPException 404 "API key not found" []), w)
  | Some api_key =>
      if (ak_user_id api_key =? id current_user)%Z
      then exists w1,
             delete_api_key key_id current_user w
             = (Ok (JDict [("message", JStr "API key deleted successfully")]), w1) /\
             base w1 = base w /\
             api_keys_db w1 = delete key_id (api_keys_db w) /\
             get_api_key_user key_id w1 = (Ok None, w1)
      else delete_api_key key_id current_user w
           = (Raise (HTTPException 403 "Not authorized to delete this API key" []), w)
  end.
Proof.
  unfold delete_api_key, bind, get, ret, raise, modify.
  destruct (api_keys_db w !! key_id) as [api_key|] eqn:Hkey; [|reflexivity].
  destruct (ak_user_id api_key =? id current_user)%Z; [|reflexivity].
  eexists. split; [reflexivity|]. split; [reflexivity|]. split; [reflexivity|].
  unfold get_api_key_user, bind, get, ret. cbn [api_keys_db set_api_keys_db].
  rewrite lookup_delete_eq. reflexivity.
Qed.

(** X12: the API key of a deleted user stops working.  In a table with
    unique ids, once [delete_user] has removed the owner of a key, the key is
    still stored but [get_api_key_user] returns [None] for it, whatever its
    expiry. *)
Theorem api_key_of_deleted_user (api_key : string) (key_data : APIKey) (admin : UserInDB)
    (w : KeyWorld) :
  well_formed (users_db (base w)) ->
  api_keys_db w !! api_key = Some key_data ->
  is_Some (dict_get (users_db (base w)) (ak_user_id key_data)) ->
  exists r w1,
    lift (delete_user (ak_user_id key_data) admin) w = (Ok r, w1) /\
    api_keys_db w1 !! api_key = Some key_data /\
    get_api_key_user api_key w1 = (Ok None, w1).
Proof.
  intros [Hkeys _] Hkey [victim Hvictim].
  eexists _, _. split.
  { unfold lift, delete_user, bind, get, ret, modify. rewrite Hvictim. reflexivity. }
  split; [exact Hkey|].
  unfold get_api_key_user, bind, get, ret. cbn [api_keys_db base]. rewrite Hkey.
  cbn [users_db set_users_db]. rewrite dict_get_after_remove by assumption.
  destruct (ak_is_active key_data); [|reflexivity]. cbn [negb].
  destruct (ak_expires_at key_data) as [e|]; [|reflexivity].
  destruct (e <? now _)%Z; reflexivity.
Qed.

End WithLibrary.

(** A library that decodes what it encodes: a token is the key and the
    claims, written as the binary digits of their code. *)
Fixpoint pos_bits (p : positive) : string :=
  match p with
  | xH => ""
  | xO q => String "0" (pos_bits q)
  | xI q => String "1" (pos_bits q)
  end.

Fixpoint bits_pos (s : string) : option positive :=
  match s with
  | EmptyString => Some xH
  | String c rest =>
      match bits_pos rest with
      | Some q => if Ascii.eqb c "0" then Some (xO q)
                  else if Ascii.eqb c "1" then Some (xI q) else None
      | None => None
      end
  end.

Lemma bits_pos_bits p : bits_pos (pos_bits p) = Some p.
Proof. induction p as [q IH|q IH|]; simpl; rewrite ?IH; reflexivity. Qed.

Definition claims_tuple (p : Payload)
  : option string * option (list string) * option string * option Z :=
  (claim_sub p, claim_scopes p, claim_type p, claim_exp p).

Definition tuple_claims (t : option string * option (list string) * option string * option Z)
  : Payload :=
  let '(s, sc, ty, e) := t in
  {| claim_sub := s; claim_scopes := sc; claim_type := ty; claim_exp := e |}.

Definition coding_library : Library :=
  {| jwt_encode payload key := pos_bits (encode (key, claims_tuple payload));
     jws_verify token key :=
       match bits_pos token ≫= decode with
       | Some (k, t) =>
           if String.eqb k key then Ok (decoded (tuple_claims t)) else Raise JWTError
       | None => Raise JWTError
       end;
     pwd_hash := pwd_hash (Library := example_library);
     pwd_verify := pwd_verify (Library := example_library);
     TokenData_coerce := TokenData_coerce (Library := example_library) |}.

Lemma coding_library_decodes (p : Payload) (k : string) :
  jws_verify (Library := coding_library) (jwt_encode (Library := coding_library) p k) k
  = Ok (decoded p).
Proof.
  simpl. rewrite bits_pos_bits. simpl. rewrite decode_encode.
  rewrite String.eqb_refl. destruct p; reflexivity.
Qed.

(** The process 100 seconds after start-up with the encoding library. *)
Definition coding_world : World :=
  {| utcnow := 100; now := 100000000;
     users_db := imported (lib := coding_library) 0;
     revoked_tokens := ∅ |}.

Definition example_key_world : KeyWorld :=
  {| base := example_world; api_keys_db := initial_api_keys_db 0;
     token_urlsafe := "c2VjcmV0" |}.

Definition newcomer : UserCreate :=
  {| uc_email := "new@example.com"; uc_full_name := "New User"; uc_is_active := false;
     uc_password := "pw" |}.

Definition admin_user : UserInDB :=
  {| email := "admin@example.com"; full_name := "Admin User"; is_active := true;
     id := 1; hashed_password := "bcrypt:admin123"; created_at := 0;
     last_login := None; roles := ["admin"]; scopes := ["read"; "write"; "admin"] |}.

Lemma register_then_login_witness :
  exists r w1 tok w2,
    register_user (lib := example_library) newcomer example_world = (Ok r, w1) /\
    ur_email r = "new@example.com" /\ ur_roles r = ["user"] /\ ur_is_active r = true /\
    (forall k, k ∈ map fst (users_db example_world) -> (k < ur_id r)%Z) /\
    login (lib := example_library)
      {| lr_email := "new@example.com"; lr_password := "pw" |} w1 = (Ok tok, w2) /\
    token_scopes tok = ["read"; "write"] /\ token_type tok = "bearer".
Proof.
  apply (register_then_login (lib := example_library) newcomer example_world "bcrypt:pw").
  - reflexivity.
  - reflexivity.
  - reflexivity.
  - discriminate.
Defined.

Lemma register_in_empty_table_witness :
  register_user (lib := example_library) newcomer
    {| utcnow := 100; now := 100000000; users_db := []; revoked_tokens := ∅ |}
  = (Raise ValueError_max,
     {| utcnow := 100; now := 100000000; users_db := []; revoked_tokens := ∅ |}).
Proof.
  apply (register_in_empty_table (lib := example_library)). reflexivity.
Defined.

Lemma users_stay_unique_witness :
  (forall user,
     well_formed (users_db (snd (register_user (lib := example_library) user example_world)))) /\
  (forall lr, well_formed (users_db (snd (login (lib := example_library) lr example_world)))) /\
  (forall user_id admin,
     well_formed (users_db (snd (delete_user user_id admin example_world)))).
Proof.
  destruct (users_stay_unique (lib := example_library) 0 example_world) as [Hinit Hkeep].
  apply Hkeep. apply Hinit. reflexivity.
Defined.

Lemma login_tokens_verify_witness :
  exists tok w1,
    login (lib := coding_library)
      {| lr_email := "admin@example.com"; lr_password := "admin123" |} coding_world
    = (Ok tok, w1) /\
    verify_token (lib := coding_library) (access_token tok) "access" w1
    = (Ok (Some {| td_email := Some "admin@example.com";
                   td_scopes := ["read"; "write"; "admin"] |}), w1) /\
    verify_token (lib := coding_library) (refresh_token_ tok) "refresh" w1
    = (Ok (Some {| td_email := Some "admin@example.com"; td_scopes := [] |}), w1) /\
    refresh_token (lib := coding_library) (access_token tok) w1
    = (Raise (HTTPException 401 "Invalid refresh token" []), w1) /\
    exists u', get_current_user (lib := coding_library) (access_token tok) w1 = (Ok u', w1) /\
               email u' = "admin@example.com" /\ last_login u' = Some 100000000%Z.
Proof.
  apply (login_tokens_verify (lib := coding_library)
           {| lr_email := "admin@example.com"; lr_password := "admin123" |}
           coding_world admin_user).
  - exact coding_library_decodes.
  - reflexivity.
  - reflexivity.
  - reflexivity.
Defined.

Lemma access_token_lifetime_witness :
  exists tok,
    create_access_token (lib := coding_library)
      {| claim_sub := Some "admin@example.com"; claim_scopes := None;
         claim_type := None; claim_exp := None |} (Some 0%Z) coding_world
    = (Ok tok, coding_world) /\
    verify_token (lib := coding_library) tok "access"
      {| utcnow := 1001; now := 0; users_db := []; revoked_tokens := ∅ |}
    = (Ok None, {| utcnow := 1001; now := 0; users_db := []; revoked_tokens := ∅ |}).
Proof.
  apply (access_token_lifetime (lib := coding_library)
           {| claim_sub := Some "admin@example.com"; claim_scopes := None;
              claim_type := None; claim_exp := None |} (Some 0%Z) coding_world
           {| utcnow := 1001; now := 0; users_db := []; revoked_tokens := ∅ |}
           "admin@example.com").
  - exact coding_library_decodes.
  - reflexivity.
  - reflexivity.
Defined.

Definition scope_request : OAuth2PasswordRequestForm :=
  {| username := "user@example.com"; password := "user123";
     form_scopes := ["read"; "admin"; "delete"] |}.

Lemma login_oauth2_scopes_witness :
  exists tok u,
    login_oauth2 (lib := example_library) scope_request example_world = (Ok tok, example_world) /\
    find_user_by_email (users_db example_world) "user@example.com" = Some u /\
    (forall s, s ∈ token_scopes tok <-> s ∈ ["read"; "admin"; "delete"] /\ s ∈ scopes u).
Proof.
  assert (Hok : exists tok,
             login_oauth2 (lib := example_library) scope_request example_world
             = (Ok tok, example_world)) by (eexists; vm_compute; reflexivity).
  destruct Hok as [tok Hok].
  destruct (login_oauth2_scopes (lib := example_library) scope_request
              example_world example_world tok Hok) as (_ & u & Hu & Hscopes & _).
  exists tok, u. split; [exact Hok|]. split; [exact Hu|exact Hscopes].
Defined.

Lemma delete_needs_active_admin_witness :
  exists j w',
    delete_admin_users (lib := example_library) admin_access_token 2 example_world
    = (Ok j, w') /\
    exists td admin victim,
      verified (lib := example_library) admin_access_token "access" example_world
      = Ok (Some td) /\
      from_option (find_user_by_email (users_db example_world)) None (td_email td)
      = Some admin /\
      is_active admin = true /\ "admin" ∈ roles admin /\
      dict_get (users_db example_world) 2 = Some victim /\
      w' = set_users_db (dict_remove (users_db example_world) 2) example_world.
Proof.
  assert (Hok : exists j w',
             delete_admin_users (lib := example_library) admin_access_token 2 example_world
             = (Ok j, w')) by (eexists _, _; vm_compute; reflexivity).
  destruct Hok as (j & w' & Hok). exists j, w'. split; [exact Hok|].
  exact (delete_needs_active_admin (lib := example_library) admin_access_token 2
           example_world w' (Ok j) Hok).
Defined.

Lemma deleted_user_is_locked_out_witness :
  exists r w1,
    delete_user 1 admin_user example_world = (Ok r, w1) /\
    verify_token (lib := example_library) admin_access_token "access" w1
    = (Ok (Some {| td_email := Some "admin@example.com";
                   td_scopes := ["read"; "write"; "admin"] |}), w1) /\
    get_current_user (lib := example_library) admin_access_token w1
    = (Raise credentials_exception, w1).
Proof.
  apply (deleted_user_is_locked_out (lib := example_library) example_world 1
           admin_user admin_user admin_access_token).
  - apply (initial_users_db_well_formed (lib := example_library) 0). reflexivity.
  - reflexivity.
  - vm_compute. reflexivity.
  - reflexivity.
Defined.

Lemma profile_needs_access_token_witness :
  get_api_key_user "api_key_123" example_key_world = (Ok (Some admin_user), example_key_world) /\
  get_user_profile (lib := example_library) "api_key_123" example_key_world
  = (Raise credentials_exception, example_key_world).
Proof.
  split; [vm_compute; reflexivity|].
  apply (profile_needs_access_token (lib := example_library)). vm_compute. reflexivity.
Defined.

Definition monthly_key : APIKeyCreate :=
  {| akc_name := "ci"; akc_scopes := ["read"; "admin"; "deploy"]; akc_expires_days := Some 30%Z |}.

Lemma api_key_round_trip_witness :
  exists k w1,
    create_api_key monthly_key admin_user example_key_world = (Ok k, w1) /\
    (forall s, s ∈ ak_scopes k -> s ∈ scopes admin_user) /\
    get_api_key_user (ak_key k) w1 = (Ok (Some admin_user), w1).
Proof.
  pose proof (create_api_key_created monthly_key admin_user example_key_world) as Hmade.
  eexists _, _. split; [exact Hmade|].
  exact (api_key_round_trip monthly_key admin_user example_key_world _ _ _ Hmade
           (conj eq_refl eq_refl)).
Defined.

Lemma api_key_of_deleted_user_witness :
  exists r w1,
    lift (delete_user 1 admin_user) example_key_world = (Ok r, w1) /\
    api_keys_db w1 !! "api_key_123"
    = Some {| ak_key := "api_key_123"; ak_name := "Test API Key"; ak_user_id := 1;
              ak_scopes := ["read"; "write"]; ak_is_active := true; ak_created_at := 0;
              ak_expires_at := None |} /\
    get_api_key_user "api_key_123" w1 = (Ok None, w1).
Proof.
  apply (api_key_of_deleted_user "api_key_123"
           {| ak_key := "api_key_123"; ak_name := "Test API Key"; ak_user_id := 1;
              ak_scopes := ["read"; "write"]; ak_is_active := true; ak_created_at := 0;
              ak_expires_at := None |} admin_user example_key_world).
  - apply (initial_users_db_well_formed (lib := example_library) 0). reflexivity.
  - reflexivity.
  - eexists. reflexivity.
Defined.

End AccountsProofs.

(** ** The layers one by one, and the stack on the way out *)
Module LayerProofs.
Import Middleware RateLimitProofs PipelineProofs.

Lemma split_nonempty sep s : exists t ts, split sep s = t :: ts.
Proof.
  destruct s as [|c rest]; simpl; [eauto|].
  destruct (Ascii.eqb c sep); [eauto|]. destruct (split sep rest); eauto.
Qed.

Lemma startswith_app (s p : string) :
  startswith s p = true -> exists rest, s = (p ++ rest)%string.
Proof.
  unfold startswith. revert s. induction p as [|a p IH]; intros s Hp.
  - exists s. reflexivity.
  - destruct s as [|b s]; [discriminate|].
    change (String.prefix (String a p) (String b s))
      with (if ascii_dec a b then String.prefix p s else false) in Hp.
    destruct (ascii_dec a b) as [<-|]; [|discriminate].
    destruct (IH s Hp) as [rest ->]. exists rest. reflexivity.
Qed.

(** The first component of a split text starts with a prefix that has no
    separator in it exactly when the text does. *)
Lemma split_head_prefix (sep : ascii) (p : string) : forall r t ts,
  Forall (fun c => Ascii.eqb c sep = false) (list_ascii_of_string p) ->
  split sep r = t :: ts ->
  startswith t p = startswith r p.
Proof.
  unfold startswith. induction p as [|a p IH]; intros r t ts Hp Hsplit.
  - destruct t, r; reflexivity.
  - cbn [list_ascii_of_string] in Hp. apply Forall_cons in Hp as [Ha Hp].
    destruct r as [|b r]; cbn [split] in Hsplit.
    + injection Hsplit as <- <-. reflexivity.
    + destruct (Ascii.eqb b sep) eqn:Hb.
      * injection Hsplit as <- <-.
        change (String.prefix (String a p) (String b r))
          with (if ascii_dec a b then String.prefix p r else false).
        destruct (ascii_dec a b) as [->|]; [congruence|reflexivity].
      * destruct (split_nonempty sep r) as (t' & ts' & Hr). rewrite Hr in Hsplit.
        injection Hsplit as <- <-.
        change (String.prefix (String a p) (String b t'))
          with (if ascii_dec a b then String.prefix p t' else false).
        change (String.prefix (String a p) (String b r))
          with (if ascii_dec a b then String.prefix p r else false).
        destruct (ascii_dec a b); [|reflexivity]. exact (IH r t' ts' Hp Hr).
Qed.

(** The token of a header that starts with [Bearer ] is the text up to the
    next space; it starts with [valid_] exactly when the header starts with
    [Bearer valid_]. *)
Lemma bearer_token (h : string) :
  startswith h "Bearer " = true ->
  exists token,
    split " " h !! 1%nat = Some token /\
    _validate_token token = startswith h "Bearer valid_".
Proof.
  intros Hp. apply startswith_app in Hp as [rest ->].
  change ("Bearer " ++ rest)%string
    with (String "B" (String "e" (String "a" (String "r" (String "e" (String "r"
           (String " " rest))))))).
  destruct (split_nonempty " " rest) as (t & ts & Hrest).
  exists t. split; [simpl; rewrite Hrest; reflexivity|].
  unfold _validate_token.
  rewrite (split_head_prefix " " "valid_" rest t ts) by (repeat constructor || exact Hrest).
  unfold startswith.
  repeat (match goal with
          | |- context [String.prefix (String ?a ?p) (String ?a ?r)] =>
              change (String.prefix (String a p) (String a r))
                with (if ascii_dec a a then String.prefix p r else false);
              destruct (ascii_dec a a); [|congruence]
          end).
  reflexivity.
Qed.

(** What [AuthMiddleware] puts into [request.state.user]. *)
Definition demo_user : json :=
  JDict [("id", JInt 1); ("username", JStr "demo_user"); ("email", JStr "demo@example.com")].

(** X13: the authentication layer on a protected path.  A request whose
    [Authorization] header starts with [Bearer valid_] is handed to the rest
    of the chain, with the demo user in [request.state.user] and nothing else
    changed.  Every other request is answered by the layer itself with a 401,
    without calling the rest of the chain and without touching the state:
    [Authentication required] when the header is missing or does not start
    with [Bearer ], [Invalid token] when it does but the text up to the next
    space does not start with [valid_].  The layer never raises on its own:
    the token subscript is always in range. *)
Theorem auth_layer_outcomes (request : Request) (call_next : App) (w : World) :
  requires_auth request = true ->
  match req_headers request !! "Authorization" with
  | None => AuthMiddleware_dispatch request call_next w = (Ok auth_required, w)
  | Some h =>
      (startswith h "Bearer valid_" = true ->
       AuthMiddleware_dispatch request call_next w
       = call_next request (set_state_user demo_user w)) /\
      (startswith h "Bearer " = true -> startswith h "Bearer valid_" = false ->
       AuthMiddleware_dispatch request call_next w = (Ok invalid_token, w)) /\
      (startswith h "Bearer " = false ->
       startswith h "Bearer valid_" = false /\
       AuthMiddleware_dispatch request call_next w = (Ok auth_required, w))
  end.
Proof.
  intros Hprot. unfold AuthMiddleware_dispatch. fold (requires_auth request). rewrite Hprot.
  destruct (req_headers request !! "Authorization") as [h|]; [|reflexivity].
  destruct (startswith h "Bearer ") eqn:Hbearer.
  - destruct (bearer_token h Hbearer) as (token & Htoken & Hvalid).
    assert (Hne : String.eqb h "" = false) by (destruct h; [discriminate|reflexivity]).
    rewrite Hne, Htoken, Hvalid. cbn [orb negb].
    split; [intros ->; reflexivity|]. split; [intros _ ->; reflexivity|discriminate].
  - rewrite orb_true_r.
    assert (Hlong : startswith h "Bearer valid_" = false).
    { destruct (startswith h "Bearer valid_") eqn:Hv; [|reflexivity].
      apply startswith_app in Hv as [rest ->]. rewrite <- Hbearer. reflexivity. }
    split; [rewrite Hlong; discriminate|]. split; [discriminate|].
    intros _. split; [exact Hlong|reflexivity].
Qed.

Definition bearer_request (h : string) : Request :=
  {| method := "GET"; url_path := "/admin/dashboard";
     req_headers := {["Authorization" := h]}; client_host := "10.0.0.1"; body := NoBody |}.

Lemma auth_layer_outcomes_witness :
  AuthMiddleware_dispatch (bearer_request "Bearer valid_x trailing") ok_handler fresh_world
  = ok_handler (bearer_request "Bearer valid_x trailing")
      (set_state_user demo_user fresh_world) /\
  AuthMiddleware_dispatch (bearer_request "Bearer  valid_x") ok_handler fresh_world
  = (Ok invalid_token, fresh_world) /\
  AuthMiddleware_dispatch (bearer_request "bearer valid_x") ok_handler fresh_world
  = (Ok auth_required, fresh_world).
Proof.
  pose proof (auth_layer_outcomes (bearer_request "Bearer valid_x trailing") ok_handler
                fresh_world eq_refl) as (Hpass & _).
  pose proof (auth_layer_outcomes (bearer_request "Bearer  valid_x") ok_handler
                fresh_world eq_refl) as (_ & Hinvalid & _).
  pose proof (auth_layer_outcomes (bearer_request "bearer valid_x") ok_handler
                fresh_world eq_refl) as (_ & _ & Hmissing).
  split; [exact (Hpass eq_refl)|]. split; [exact (Hinvalid eq_refl eq_refl)|].
  exact (proj2 (Hmissing eq_refl)).
Defined.

(** The state in which the limiter calls the rest of the chain, when it
    kept the timestamps [l] of the client, and what it adds to the answer. *)
Definition admitted_world (t : Z) (request : Request) (w : World) (l : list Z) : World :=
  {| now := t; uuid4 := uuid4 w; process_time := process_time w;
     timestamp := timestamp w;
     rate_limit_storage := <[client_host request := l ++ [t]]> (rate_limit_storage w);
     state_request_id := None; state_user := None |}.

Definition rate_limit_headers (self : RateLimitMiddleware) (reset : Z) (used : nat)
    (response : Response) : Response :=
  set_header "X-RateLimit-Reset" (str_Z reset)
    (set_header "X-RateLimit-Remaining" (str_Z (calls self - Z.of_nat used))
      (set_header "X-RateLimit-Limit" (str_Z (calls self)) response)).

Lemma serve_limited_admits self call_next t request w :
  let ip := client_host request in
  let l := kept self t (rate_limit_storage w) ip in
  (Z.of_nat (length l) < calls self)%Z ->
  serve (limited self call_next) t request w
  = match call_next request (admitted_world t request w l) with
    | (Ok response, w') =>
        (Ok (rate_limit_headers self (timestamp w' (t + timedelta (period self)))
               (length (storage_get (rate_limit_storage w') ip)) response), w')
    | (Raise e, w') => (Raise e, w')
    end.
Proof.
  intros ip l Hfree. unfold serve, limited, RateLimitMiddleware_dispatch.
  unfold bind at 1, get at 1. unfold bind at 1, modify at 1.
  unfold bind at 1, get at 1.
  cbn [now rate_limit_storage set_rate_limit_storage].
  rewrite storage_get_insert_eq. fold ip. fold (kept self t (rate_limit_storage w) ip). fold l.
  apply Z.leb_gt in Hfree. rewrite Hfree.
  unfold bind at 1, modify at 1.
  cbn [now rate_limit_storage set_rate_limit_storage uuid4 process_time timestamp
       state_request_id state_user].
  rewrite storage_get_insert_eq, insert_insert_eq. unfold set_rate_limit_storage.
  cbn [now rate_limit_storage uuid4 process_time timestamp state_request_id state_user].
  unfold admitted_world. fold ip.
  unfold bind at 1. destruct (call_next request _) as [[resp|e] w']; reflexivity.
Qed.

(** X14: the window slides.  With a budget of at least one request, a
    client all of whose recorded timestamps are a full period old or older
    is passed on to the rest of the chain, however many they are: the pruned
    history is empty, so the chain runs with this request as the client's
    only timestamp. *)
Theorem rate_limit_window_slides (self : RateLimitMiddleware) (call_next : App) (t : Z)
    (request : Request) (w : World) :
  (1 <= calls self)%Z ->
  Forall (fun timestamp => (timestamp <= t - timedelta (period self))%Z)
    (storage_get (rate_limit_storage w) (client_host request)) ->
  kept self t (rate_limit_storage w) (client_host request) = [] /\
  storage_get (rate_limit_storage (admitted_world t request w [])) (client_host request) = [t] /\
  serve (limited self call_next) t request w
  = match call_next request (admitted_world t request w []) with
    | (Ok response, w') =>
        (Ok (rate_limit_headers self (timestamp w' (t + timedelta (period self)))
               (length (storage_get (rate_limit_storage w') (client_host request)))
               response), w')
    | (Raise e, w') => (Raise e, w')
    end.
Proof.
  intros Hcalls Hold.
  assert (Hkept : kept self t (rate_limit_storage w) (client_host request) = []).
  { unfold kept. induction Hold as [|x l Hx _ IH]; [reflexivity|].
    rewrite filter_cons_False by (simpl; lia). exact IH. }
  split; [exact Hkept|]. split; [apply storage_get_insert_eq|].
  rewrite serve_limited_admits by (rewrite Hkept; simpl; lia).
  rewrite Hkept. reflexivity.
Qed.

(** The client of [client_request] has used up a budget of five. *)
Definition stale_world : World :=
  {| now := 0; uuid4 := "0000"; process_time := "0.001"; timestamp := utc_timestamp;
     rate_limit_storage := {["10.0.0.1" := [0; 1; 2; 3; 1000000]%Z]};
     state_request_id := None; state_user := None |}.

Lemma rate_limit_window_slides_witness :
  kept five_per_minute 61000000 (rate_limit_storage stale_world) "10.0.0.1" = [] /\
  fst (serve (limited five_per_minute ok_handler) 61000000 client_request stale_world)
  = Ok (rate_limit_headers five_per_minute 121 1
          (JSONResponse 200 (JDict [("message", JStr "Rate limit test")]) ∅)).
Proof.
  destruct (rate_limit_window_slides five_per_minute ok_handler 61000000 client_request
              stale_world) as (Hkept & _ & Hserve).
  - simpl. lia.
  - change (storage_get (rate_limit_storage stale_world) (client_host client_request))
      with [0; 1; 2; 3; 1000000]%Z.
    unfold timedelta, five_per_minute, period. repeat constructor; lia.
  - split; [exact Hkept|]. rewrite Hserve. reflexivity.
Defined.

(** X15: what an admitted request costs and gets.  When fewer than [calls]
    timestamps of the client are kept and the rest of the chain leaves the
    limiter's storage alone, the request's timestamp is recorded whether the
    chain answers or raises, so a request that fails downstream still uses up
    budget; an answer comes back with its status and content unchanged and
    with [X-RateLimit-Limit = calls] and [X-RateLimit-Remaining] the budget
    left after this request, a number from 0 to [calls - 1]. *)
Theorem admitted_request_is_counted (self : RateLimitMiddleware) (call_next : App) (t : Z)
    (request : Request) (w : World) :
  (forall rq w0, rate_limit_storage (snd (call_next rq w0)) = rate_limit_storage w0) ->
  let l := kept self t (rate_limit_storage w) (client_host request) in
  (Z.of_nat (length l) < calls self)%Z ->
  exists r w',
    serve (limited self call_next) t request w = (r, w') /\
    storage_get (rate_limit_storage w') (client_host request) = l ++ [t] /\
    match call_next request (admitted_world t request w l) with
    | (Raise e, _) => r = Raise e
    | (Ok response, _) =>
        exists response' remaining,
          r = Ok response' /\
          status_code response' = status_code response /\
          content response' = content response /\
          headers response' !! "X-RateLimit-Limit" = Some (str_Z (calls self)) /\
          headers response' !! "X-RateLimit-Remaining" = Some (str_Z remaining) /\
          remaining = (calls self - Z.of_nat (length l) - 1)%Z /\
          (0 <= remaining < calls self)%Z
    end.
Proof.
  intros Hpres l Hfree. rewrite serve_limited_admits by exact Hfree. fold l.
  pose proof (Hpres request (admitted_world t request w l)) as Hst.
  destruct (call_next request (admitted_world t request w l)) as [[resp|e] w'] eqn:Hnext;
    simpl in Hst; eexists _, _; (split; [reflexivity|]);
    (split; [rewrite Hst; apply storage_get_insert_eq|]).
  - eexists _, _. split; [reflexivity|]. split; [reflexivity|]. split; [reflexivity|].
    split.
    { simpl. rewrite lookup_insert_ne by discriminate.
      rewrite lookup_insert_ne by discriminate. apply lookup_insert_eq. }
    split.
    { simpl. rewrite lookup_insert_ne by discriminate. apply lookup_insert_eq. }
    rewrite Hst. simpl. rewrite storage_get_insert_eq, length_app. simpl. lia.
  - reflexivity.
Qed.

Definition failing_handler : App := fun _ => raise (Exception "This is a test error").

Lemma admitted_request_is_counted_witness :
  exists r w',
    serve (limited five_per_minute failing_handler) 7 client_request fresh_world = (r, w') /\
    storage_get (rate_limit_storage w') "10.0.0.1" = [7%Z] /\
    r = Raise (Exception "This is a test error").
Proof.
  destruct (admitted_request_is_counted five_per_minute failing_handler 7 client_request
              fresh_world) as (r & w' & Hserve & Hlist & Hr).
  - intros rq w0. reflexivity.
  - vm_compute. reflexivity.
  - exists r, w'. split; [exact Hserve|]. split; [exact Hlist|exact Hr].
Defined.

Section Limiter.

Variable self : RateLimitMiddleware.
Variable call_next : App.

Hypothesis call_next_storage :
  forall request w, rate_limit_storage (snd (call_next request w)) = rate_limit_storage w.

Lemma serve_limited_other_client t request w ip :
  client_host request <> ip ->
  storage_get (rate_limit_storage (snd (serve (limited self call_next) t request w))) ip
  = storage_get (rate_limit_storage w) ip.
Proof.
  intros Hne.
  destruct (serve_limited_storage self call_next call_next_storage t request w)
    as (r & w' & Hserve & Hcase).
  rewrite Hserve. simpl.
  destruct (calls self <=? _)%Z; destruct Hcase as [_ ->];
    apply storage_get_insert_ne; assumption.
Qed.

(** X16: clients do not share a budget.  Whatever requests other clients
    send, and whether they are admitted or rejected, the list of timestamps
    of a client that sends nothing stays as it is. *)
Theorem other_clients_untouched (reqs : list (Z * Request)) (ip : string) : forall w,
  Forall (fun tr => client_host (snd tr) <> ip) reqs ->
  storage_get (rate_limit_storage (snd (serve_all (limited self call_next) reqs w))) ip
  = storage_get (rate_limit_storage w) ip.
Proof.
  induction reqs as [|[t request] reqs IH]; intros w Hothers; simpl; [reflexivity|].
  apply Forall_cons in Hothers as [Hne Hothers]. simpl in Hne.
  pose proof (serve_limited_other_client t request w ip Hne) as Hstep.
  destruct (serve (limited self call_next) t request w) as [r w1]. simpl in Hstep.
  specialize (IH w1 Hothers).
  destruct (serve_all (limited self call_next) reqs w1) as [rs w2]. simpl in *.
  rewrite IH. exact Hstep.
Qed.

End Limiter.

Lemma other_clients_untouched_witness :
  storage_get
    (rate_limit_storage
       (snd (serve_all (limited five_per_minute ok_handler)
               [(1%Z, other_request); (2%Z, other_request)] spent_world))) "10.0.0.1"
  = replicate 100 0%Z.
Proof.
  rewrite (other_clients_untouched five_per_minute ok_handler ok_handler_storage
             [(1%Z, other_request); (2%Z, other_request)] "10.0.0.1" spent_world).
  - reflexivity.
  - repeat constructor; discriminate.
Defined.

Section Stack.

Variable json_loads : string -> Exc json.
Variable library_layer : MiddlewareClass -> App -> App.
Variable router : App.








(** X19: a body that is not UTF-8 gets past the authentication layer and
    breaks the logging layer.  For a POST, PUT or PATCH on an unprotected
    path whose body does not decode, the stack raises [UnicodeDecodeError]
    to the server instead of answering: the logging layer decodes the body
    outside its [try], and neither the limiter nor the handler is reached. *)
Theorem undecodable_body_escapes (t : Z) (request : Request) (w : World) :
  requires_auth request = false ->
  method request ∈ ["POST"; "PUT"; "PATCH"] ->
  body request = NotUtf8 ->
  serve (app json_loads library_layer router) t request w
  = (Raise UnicodeDecodeError,
     {| now := t; uuid4 := uuid4 w; process_time := process_time w;
        timestamp := timestamp w;
        rate_limit_storage := rate_limit_storage w;
        state_request_id := None; state_user := None |}).
Proof.
  intros Hfree Hmethod Hbody. rewrite app_layers.
  unfold serve, AuthMiddleware_dispatch. fold (requires_auth request). rewrite Hfree.
  unfold LoggingMiddleware_dispatch.
  assert (Hm : existsb (String.eqb (method request)) ["POST"; "PUT"; "PATCH"] = true).
  { apply existsb_exists. exists (method request).
    split; [apply list_elem_of_In; assumption|apply String.eqb_refl]. }
  rewrite Hm, Hbody. reflexivity.
Qed.

End Stack.

Definition upload_request : Request :=
  {| method := "POST"; url_path := "/session-demo"; req_headers := ∅;
     client_host := "10.0.0.1"; body := NotUtf8 |}.





Lemma undecodable_body_escapes_witness :
  fst (serve (plain_app ok_handler) 5 upload_request spent_world)
  = Raise UnicodeDecodeError /\
  rate_limit_storage (snd (serve (plain_app ok_handler) 5 upload_request spent_world))
  = rate_limit_storage spent_world.
Proof.
  unfold plain_app.
  rewrite (undecodable_body_escapes loads_integer plain_library ok_handler 5 upload_request
             spent_world).
  - split; reflexivity.
  - reflexivity.
  - apply elem_of_cons. left. reflexivity.
  - reflexivity.
Defined.

End LayerProofs.

(** ** Workers and the task endpoints *)
Module WorkerProofs.
Import Tasks TasksProofs.

(** The state [w] at clock reading [t0] with [task] stored under [tid]. *)
Definition with_task (w : World) (t0 : Z) (tid : string) (task : TaskStatus) : World :=
  {| now := t0; next_uuid := next_uuid w;
     task_storage := <[tid := task]> (task_storage w);
     background_tasks := background_tasks w |}.

Lemma update_with_task w t0 tid task st kwargs :
  update_task_status tid st kwargs (with_task w t0 tid task)
  = (Ok tt, with_task w t0 tid (updated t0 st kwargs task)).
Proof.
  rewrite (update_task_status_present tid st kwargs _ task) by apply lookup_insert_eq.
  unfold with_task, set_task_storage. simpl. rewrite insert_insert_eq. reflexivity.
Qed.

Lemma update_first w tid task st kwargs :
  task_storage w !! tid = Some task ->
  update_task_status tid st kwargs w
  = (Ok tt, with_task w (now w) tid (updated (now w) st kwargs task)).
Proof. intros Hin. rewrite (update_task_status_present tid st kwargs w task Hin). reflexivity. Qed.

Lemma sleep_with_task w t0 tid task d :
  sleep d (with_task w t0 tid task) = (Ok tt, with_task w (t0 + d) tid task).
Proof. reflexivity. Qed.

Ltac run_step :=
  first [ rewrite (bind_Ok _ _ _ _ _ (update_with_task _ _ _ _ _ _))
        | rewrite (bind_Ok _ _ _ _ _ (sleep_with_task _ _ _ _ _)) ].

Lemma log_task_completion_error tid res err :
  err <> ""%string ->
  log_task_completion tid res (Some err) = update_task_status tid "failed" [kw_error (Some err)].
Proof. destruct err; [congruence|reflexivity]. Qed.

Lemma setattrs_frame kwargs :
  Forall (fun kw => match kw with
                    | kw_progress _ | kw_result _ | kw_error _ | kw_other _ => True
                    | _ => False
                    end) kwargs ->
  forall t,
    let t' := fold_left (fun t kw => setattr kw t) kwargs t in
    task_id t' = task_id t /\ created_at t' = created_at t /\
    metadata t' = metadata t /\ started_at t' = started_at t.
Proof.
  induction 1 as [|kw kwargs Hk _ IH]; intros t; simpl; [repeat split; reflexivity|].
  destruct (IH (setattr kw t)) as (H1 & H2 & H3 & H4).
  rewrite H1, H2, H3, H4. destruct kw; try contradiction; repeat split; reflexivity.
Qed.

Lemma updated_frame t0 st kwargs task :
  Forall (fun kw => match kw with
                    | kw_progress _ | kw_result _ | kw_error _ | kw_other _ => True
                    | _ => False
                    end) kwargs ->
  let task' := updated t0 st kwargs task in
  task_id task' = task_id task /\ created_at task' = created_at task /\
  metadata task' = metadata task /\
  started_at task'
  = match started_at task with
    | Some s => Some s
    | None => if String.eqb st "running" then Some t0 else None
    end.
Proof.
  intros Hkw. unfold updated.
  match goal with |- context [fold_left _ kwargs ?b] =>
    destruct (setattrs_frame kwargs Hkw b) as (H1 & H2 & H3 & H4) end.
  cbv zeta. rewrite H1, H2, H3, H4. clear H1 H2 H3 H4.
  destruct (String.eqb st "running") eqn:Hrun;
    destruct (started_at task) as [s|] eqn:Hs; simpl; rewrite ?Hs; simpl;
    repeat (case_match; simpl); rewrite ?Hs; repeat split; reflexivity.
Qed.

(** X20: a status update with progress, result or error touches nothing
    else.  For a task in the registry and keyword arguments among
    [progress], [result] and [error], [update_task_status] leaves every other
    task as it is and keeps the task's [task_id], [created_at] and
    [metadata]; [started_at] is set by the first update to [running] and
    never changed afterwards. *)
Theorem update_keeps_identity (w : World) (tid : string) (task : TaskStatus) (st : string)
    (kwargs : list kwarg) :
  task_storage w !! tid = Some task ->
  Forall (fun kw => match kw with
                    | kw_progress _ | kw_result _ | kw_error _ | kw_other _ => True
                    | _ => False
                    end) kwargs ->
  exists task' w',
    update_task_status tid st kwargs w = (Ok tt, w') /\
    task_storage w' !! tid = Some task' /\
    (forall other, other <> tid -> task_storage w' !! other = task_storage w !! other) /\
    task_id task' = task_id task /\ created_at task' = created_at task /\
    metadata task' = metadata task /\
    started_at task'
    = match started_at task with
      | Some s => Some s
      | None => if String.eqb st "running" then Some (now w) else None
      end.
Proof.
  intros Hin Hkw. eexists _, _. split; [apply update_first; exact Hin|].
  split; [apply lookup_insert_eq|]. split.
  - intros other Hne. simpl. apply lookup_insert_ne. congruence.
  - apply updated_frame. exact Hkw.
Qed.

Lemma update_keeps_identity_witness :
  exists task' w',
    update_task_status "t1" "running" [kw_progress 0.5%float] finished_world = (Ok tt, w') /\
    task_storage w' !! "t1" = Some task' /\
    task_id task' = "t1" /\ started_at task' = Some 10%Z.
Proof.
  destruct (update_keeps_identity finished_world "t1" finished_task "running"
              [kw_progress 0.5%float]) as (task' & w' & Hrun & Hget & _ & Hid & _ & _ & Hstart).
  - reflexivity.
  - repeat constructor.
  - exists task', w'. repeat split; assumption.
Defined.

(** X21: an error with an empty message is taken for success.  For a task
    in the registry, [log_task_completion] with a non-empty error marks the
    task [failed] and stores the message; with the empty message, which is
    what [str(e)] is for an exception raised without arguments, it marks the
    task [completed], stores the result it was given (none, when a worker
    reports a failure) and leaves [error] as it was. *)
Theorem empty_error_is_success (w : World) (tid : string) (task : TaskStatus)
    (res : option json) (err : string) :
  task_storage w !! tid = Some task ->
  exists task' w',
    log_task_completion tid res (Some err) w = (Ok tt, w') /\
    task_storage w' !! tid = Some task' /\
    completed_at task' = Some (now w) /\
    if String.eqb err ""
    then status task' = "completed" /\ result task' = res /\ error task' = error task
    else status task' = "failed" /\ error task' = Some err /\ result task' = result task.
Proof.
  intros Hin. destruct err as [|c err].
  - eexists _, _. split; [apply update_first; exact Hin|].
    split; [apply lookup_insert_eq|]. unfold updated. simpl.
    repeat split; reflexivity.
  - eexists _, _. split; [apply update_first; exact Hin|].
    split; [apply lookup_insert_eq|]. unfold updated. simpl.
    repeat split; reflexivity.
Qed.

Lemma empty_error_is_success_witness :
  exists task' w',
    log_task_completion "t1" None (Some "") finished_world = (Ok tt, w') /\
    task_storage w' !! "t1" = Some task' /\
    status task' = "completed" /\ result task' = None.
Proof.
  destruct (empty_error_is_success finished_world "t1" finished_task None "")
    as (task' & w' & Hrun & Hget & _ & Hstatus & Hresult & _).
  - reflexivity.
  - exists task', w'. repeat split; assumption.
Defined.

(** X22: what [DELETE /task/{task_id}] does.  An unknown id is a 404 and a
    running task a 409, both without a change.  Any other task is removed,
    also one that is still pending: afterwards its status is a 404 and every
    status update for it is a no-op, while the other tasks are untouched. *)
Theorem cancel_task_cases (w : World) (tid : string) :
  match task_storage w !! tid with
  | None =>
      cancel_task tid w = (Raise (HTTPException 404 ("Task " ++ tid ++ " not found") []), w)
  | Some task =>
      if String.eqb (status task) "running"
      then cancel_task tid w
           = (Ok (409%Z, JDict [("message", JStr "Cannot cancel running task")]), w)
      else exists w1,
             cancel_task tid w
             = (Ok (200%Z, JDict [("message", JStr ("Task " ++ tid ++ " removed"))]), w1) /\
             task_storage w1 = delete tid (task_storage w) /\
             get_task_status tid w1
             = (Raise (HTTPException 404 ("Task " ++ tid ++ " not found") []), w1) /\
             (forall st kwargs, update_task_status tid st kwargs w1 = (Ok tt, w1)) /\
             (forall other, other <> tid -> task_storage w1 !! other = task_storage w !! other)
  end.
Proof.
  unfold cancel_task, bind, get, ret, raise, modify.
  destruct (task_storage w !! tid) as [task|] eqn:Hin; [|reflexivity].
  destruct (String.eqb (status task) "running"); [reflexivity|].
  eexists. split; [reflexivity|]. split; [reflexivity|].
  assert (Hgone : delete tid (task_storage w) !! tid = None) by apply lookup_delete_eq.
  split.
  { unfold get_task_status, bind, get, raise. cbn [task_storage set_task_storage].
    rewrite Hgone. reflexivity. }
  split.
  { intros st kwargs. apply update_task_status_absent. exact Hgone. }
  intros other Hne. cbn [task_storage set_task_storage]. apply lookup_delete_ne. congruence.
Qed.

Lemma send_email_task_absent req tid w :
  task_storage w !! tid = None ->
  send_email_task req tid w
  = (Ok tt, {| now := now w + 3000000; next_uuid := next_uuid w;
               task_storage := task_storage w; background_tasks := background_tasks w |}).
Proof.
  intros Hout. unfold send_email_task, try_except.
  rewrite (bind_Ok _ _ _ _ _ (update_task_status_absent _ _ _ _ Hout)).
  unfold sleep at 1, modify at 1. unfold bind at 1.
  erewrite bind_Ok by (apply update_task_status_absent; exact Hout).
  unfold sleep at 1, modify at 1. unfold bind at 1.
  erewrite bind_Ok by (apply update_task_status_absent; exact Hout).
  unfold sleep at 1, modify at 1. unfold bind at 1.
  erewrite bind_Ok by (apply update_task_status_absent; exact Hout).
  unfold bind at 1, get at 1. unfold log_task_completion.
  erewrite update_task_status_absent by exact Hout.
  cbn [now next_uuid task_storage background_tasks].
  replace (now w + 1000000 + 1000000 + 1000000)%Z with (now w + 3000000)%Z by lia.
  reflexivity.
Qed.

(** X23: a task removed while pending leaves no trace.  When the task that
    [send_email] has just created is deleted before the worker starts, which
    [cancel_task] allows, the worker still runs to the end, but all its
    status updates are no-ops: the registry ends as it was without that id,
    and the work that was done is recorded nowhere. *)
Theorem cancelled_pending_task (w : World) (req : EmailRequest) :
  background_tasks w = [] ->
  let tid := next_uuid w in
  exists j w1 w2 w3,
    send_email req w = (Ok j, w1) /\
    cancel_task tid w1
    = (Ok (200%Z, JDict [("message", JStr ("Task " ++ tid ++ " removed"))]), w2) /\
    run_background_tasks w2 = (Ok tt, w3) /\
    task_storage w3 = delete tid (task_storage w) /\
    now w3 = (now w + 3000000)%Z /\
    get_task_status tid w3
    = (Raise (HTTPException 404 ("Task " ++ tid ++ " not found") []), w3).
Proof.
  intros Hq. cbv zeta.
  assert (Hgone : delete (next_uuid w) (task_storage w) !! next_uuid w = None)
    by apply lookup_delete_eq.
  eexists _, _, _, _. split.
  { unfold send_email, create_task_id, bind, get, ret, modify, set_task_storage,
      set_background_tasks. simpl. rewrite Hq. reflexivity. }
  split.
  { unfold cancel_task. unfold bind at 1, get at 1. cbn [task_storage].
    rewrite lookup_insert_eq. cbn [status new_TaskStatus String.eqb].
    unfold bind, modify, ret. reflexivity. }
  cbn [set_task_storage task_storage now next_uuid background_tasks].
  rewrite delete_insert_eq.
  split.
  { unfold run_background_tasks. unfold bind at 1, get at 1.
    unfold bind at 1, modify at 1. simpl run_tasks. unfold run_task.
    erewrite bind_Ok by (apply send_email_task_absent; exact Hgone).
    reflexivity. }
  split; [reflexivity|]. split; [reflexivity|].
  unfold get_task_status, bind, get, raise.
  cbn [set_task_storage set_background_tasks task_storage now next_uuid background_tasks].
  rewrite Hgone. reflexivity.
Qed.

Lemma cancelled_pending_task_witness :
  exists j w1 w2 w3,
    send_email mail idle_world = (Ok j, w1) /\
    cancel_task "t2" w1
    = (Ok (200%Z, JDict [("message", JStr "Task t2 removed")]), w2) /\
    run_background_tasks w2 = (Ok tt, w3) /\
    task_storage w3 = delete "t2" (task_storage idle_world) /\
    now w3 = 3000000%Z /\
    get_task_status "t2" w3 = (Raise (HTTPException 404 "Task t2 not found" []), w3).
Proof.
  apply (cancelled_pending_task idle_world mail). reflexivity.
Defined.

Lemma updated_progress t0 st p task : progress (updated t0 st [kw_progress p] task) = p.
Proof. unfold updated. simpl. repeat (case_match; simpl); reflexivity. Qed.

Lemma updated_progress_keeps t0 st p task :
  error (updated t0 st [kw_progress p] task) = error task /\
  result (updated t0 st [kw_progress p] task) = result task.
Proof. unfold updated. simpl. repeat (case_match; simpl); split; reflexivity. Qed.

Lemma updated_progress_error t0 st p task :
  error (updated t0 st [kw_progress p] task) = error task.
Proof. apply updated_progress_keeps. Qed.

Lemma updated_progress_result t0 st p task :
  result (updated t0 st [kw_progress p] task) = result task.
Proof. apply updated_progress_keeps. Qed.

Lemma updated_error t0 st e task :
  let task' := updated t0 st [kw_error e] task in
  error task' = e /\ progress task' = progress task /\ result task' = result task.
Proof. unfold updated. simpl. repeat (case_match; simpl); repeat split; reflexivity. Qed.

Lemma updated_result t0 st r task :
  let task' := updated t0 st [kw_result r] task in
  result task' = r /\ progress task' = progress task /\ error task' = error task /\
  started_at task' = match started_at task with
                     | Some s => Some s
                     | None => if String.eqb st "running" then Some t0 else None
                     end.
Proof.
  unfold updated. simpl. destruct (String.eqb st "running") eqn:Hrun;
    destruct (started_at task) eqn:Hs; simpl; rewrite ?Hs; simpl;
    repeat (case_match; simpl); rewrite ?Hs; repeat split; reflexivity.
Qed.

Lemma with_task_other w t0 tid task other :
  other <> tid -> task_storage (with_task w t0 tid task) !! other = task_storage w !! other.
Proof. intros Hne. simpl. apply lookup_insert_ne. congruence. Qed.

Section FileSystem.

Variable path_str : string -> string.
Variable path_exists : string -> Exc bool.

(** Why [process_file_task] gives a request up, with the progress reached
    by then; [None] when it goes through. *)
Definition refusal (file_request : FileProcessRequest) : option (string * float) :=
  match path_exists (file_path file_request) with
  | Raise e => Some (str_exn e, 0.1%float)
  | Ok found =>
      if negb found
      then Some (("File not found: " ++ path_str (file_path file_request))%string, 0.1%float)
      else if existsb (String.eqb (operation file_request)) ["resize"; "convert"; "compress"]
           then None
           else Some (("Unknown operation: " ++ operation file_request)%string, 0.2%float)
  end.

(** X24: a failing file task fails alone.  When the file does not exist,
    or the check for it raises an exception with a message, or the operation
    is not one of resize, convert and compress, the worker itself returns
    normally; the task ends [failed] with the message of the error in
    [error], the progress it had reached (0.1 for a missing file or a failed
    check, 0.2 for an unknown operation) and its result untouched, and no
    other task of the registry is changed. *)
Theorem file_task_fails_alone (file_request : FileProcessRequest) (tid : string) (w : World)
    (task : TaskStatus) (msg : string) (reached : float) :
  task_storage w !! tid = Some task ->
  refusal file_request = Some (msg, reached) ->
  (forall e, path_exists (file_path file_request) = Raise e -> str_exn e <> EmptyString) ->
  exists task' w',
    process_file_task path_str path_exists file_request tid w = (Ok tt, w') /\
    task_storage w' !! tid = Some task' /\
    status task' = "failed" /\ error task' = Some msg /\
    progress task' = reached /\ result task' = result task /\
    (forall other, other <> tid -> task_storage w' !! other = task_storage w !! other).
Proof.
  intros Hin Hwhy Hmsg. unfold refusal in Hwhy.
  unfold process_file_task, try_except.
  rewrite (bind_Ok _ _ _ _ _ (update_first _ _ _ _ _ Hin)).
  unfold call at 1. unfold bind at 1.
  destruct (path_exists (file_path file_request)) as [[|]|e]; cbn [negb] in Hwhy |- *;
    [clear Hmsg|clear Hmsg|specialize (Hmsg e eq_refl)].
  - unfold ret at 1. unfold bind at 1. run_step.
    unfold existsb in Hwhy.
    destruct (String.eqb (operation file_request) "resize"); [discriminate|].
    destruct (String.eqb (operation file_request) "convert"); [discriminate|].
    destruct (String.eqb (operation file_request) "compress"); [discriminate|].
    cbn [orb] in Hwhy. injection Hwhy as <- <-.
    unfold raise at 1. unfold bind at 1. cbn [is_Exception str_exn].
    rewrite log_task_completion_error
      by (intros Habs; apply (f_equal String.length) in Habs; discriminate Habs).
    rewrite update_with_task.
    eexists _, _. split; [reflexivity|]. split; [apply lookup_insert_eq|].
    split; [apply updated_status|].
    match goal with |- context [updated ?t0 "failed" [kw_error ?e] ?tk] =>
      destruct (updated_error t0 "failed" e tk) as (He & Hp & Hr) end.
    split; [exact He|]. split.
    { rewrite Hp. rewrite updated_progress. reflexivity. }
    split.
    { rewrite Hr. rewrite !updated_progress_result. reflexivity. }
    intros other Hne. apply with_task_other. exact Hne.
  - injection Hwhy as <- <-.
    unfold raise at 1. unfold bind at 1. cbn [is_Exception str_exn].
    rewrite log_task_completion_error
      by (intros Habs; apply (f_equal String.length) in Habs; discriminate Habs).
    rewrite update_with_task.
    eexists _, _. split; [reflexivity|]. split; [apply lookup_insert_eq|].
    split; [apply updated_status|].
    match goal with |- context [updated ?t0 "failed" [kw_error ?e] ?tk] =>
      destruct (updated_error t0 "failed" e tk) as (He & Hp & Hr) end.
    split; [exact He|]. split.
    { rewrite Hp. rewrite updated_progress. reflexivity. }
    split.
    { rewrite Hr. rewrite !updated_progress_result. reflexivity. }
    intros other Hne. apply with_task_other. exact Hne.
  - injection Hwhy as <- <-. cbn [is_Exception].
    rewrite log_task_completion_error by exact Hmsg.
    rewrite update_with_task.
    eexists _, _. split; [reflexivity|]. split; [apply lookup_insert_eq|].
    split; [apply updated_status|].
    match goal with |- context [updated ?t0 "failed" [kw_error ?e] ?tk] =>
      destruct (updated_error t0 "failed" e tk) as (He & Hp & Hr) end.
    split; [exact He|]. split.
    { rewrite Hp. rewrite updated_progress. reflexivity. }
    split.
    { rewrite Hr. rewrite !updated_progress_result. reflexivity. }
    intros other Hne. apply with_task_other. exact Hne.
Qed.

Lemma bind_bind {W A B C} (c : M W A) (k1 : A -> M W B) (k2 : B -> M W C) (w : W) :
  bind (bind c k1) k2 w = bind c (fun a => bind (k1 a) k2) w.
Proof. unfold bind. destruct (c w) as [[a|e] w']; reflexivity. Qed.

Ltac assoc_step :=
  lazymatch goal with
  | |- context [bind (bind ?c ?k1) ?k2 ?w] => rewrite (bind_bind c k1 k2 w); cbv beta
  end.

Ltac run_loop :=
  unfold resize_image_task, convert_file_task, compress_file_task; cbn [progress_loop];
  repeat (assoc_step; run_step; cbv beta);
  unfold ret at 1; unfold bind at 1.

Ltac finish_file_task :=
  let Hr := fresh "Hr" in
  let Hp := fresh "Hp" in
  let He := fresh "He" in
  let other := fresh "other" in
  let Hne := fresh "Hne" in
  unfold bind at 1, get at 1; unfold log_task_completion; rewrite update_with_task;
  eexists _, _; split; [reflexivity|]; split; [apply lookup_insert_eq|];
  split; [apply updated_status|];
  match goal with |- context [updated ?t0 "completed" [kw_result ?r] ?tk] =>
    destruct (updated_result t0 "completed" r tk) as (Hr & Hp & He & _) end;
  split; [rewrite Hr; eauto|];
  split; [rewrite He; rewrite !updated_progress_error; reflexivity|];
  split; [rewrite Hp; apply updated_progress|];
  split; [cbn [now with_task]; lia|];
  intros other Hne; apply with_task_other; exact Hne.

(** X25: a file task that goes through.  When the file exists and the
    operation is known, the task ends [completed] with a result and with its
    [error] untouched, after four progress steps; the progress it shows at
    the end is 0.9 for resize but 1.0 for convert and compress, and the clock
    has moved by four pauses of 0.5, 0.8 or 0.3 seconds. *)
Theorem file_task_completes (file_request : FileProcessRequest) (tid : string) (w : World)
    (task : TaskStatus) :
  task_storage w !! tid = Some task ->
  refusal file_request = None ->
  exists task' w',
    process_file_task path_str path_exists file_request tid w = (Ok tt, w') /\
    task_storage w' !! tid = Some task' /\
    status task' = "completed" /\ is_Some (result task') /\ error task' = error task /\
    progress task'
    = (if String.eqb (operation file_request) "resize" then 0.9%float else 1.0%float) /\
    now w'
    = (now w + if String.eqb (operation file_request) "resize" then 2000000
               else if String.eqb (operation file_request) "convert" then 3200000
                    else 1200000)%Z /\
    (forall other, other <> tid -> task_storage w' !! other = task_storage w !! other).
Proof.
  intros Hin Hwhy. unfold refusal in Hwhy.
  unfold process_file_task, try_except.
  rewrite (bind_Ok _ _ _ _ _ (update_first _ _ _ _ _ Hin)).
  unfold call at 1. unfold bind at 1.
  destruct (path_exists (file_path file_request)) as [[|]|e]; cbn [negb] in Hwhy |- *;
    [|discriminate|discriminate].
  unfold ret at 1. unfold bind at 1. run_step.
  unfold existsb in Hwhy.
  destruct (String.eqb (operation file_request) "resize").
  { run_loop. finish_file_task. }
  destruct (String.eqb (operation file_request) "convert").
  { run_loop. finish_file_task. }
  destruct (String.eqb (operation file_request) "compress"); [|discriminate].
  run_loop. finish_file_task.
Qed.

End FileSystem.

(** X26: a notification is never seen running.  For a task in the registry
    that has not been started, [send_notification_email] returns normally and
    leaves the task [completed] with a result, half a second later, with
    [started_at] still unset and the progress it had: the task goes from
    [pending] to [completed] without passing through [running]. *)
Theorem notification_skips_running (user_email message tid : string) (w : World)
    (task : TaskStatus) :
  task_storage w !! tid = Some task ->
  started_at task = None ->
  exists task' w',
    send_notification_email user_email message tid w = (Ok tt, w') /\
    task_storage w' !! tid = Some task' /\
    status task' = "completed" /\ is_Some (result task') /\
    started_at task' = None /\ progress task' = progress task /\
    completed_at task' = Some (now w + 500000)%Z.
Proof.
  intros Hin Hstart. unfold send_notification_email, try_except.
  unfold sleep at 1, modify at 1. unfold bind at 1. unfold bind at 1, get at 1.
  cbn [now].
  erewrite update_task_status_present by exact Hin.
  eexists _, _. split; [reflexivity|]. cbn [task_storage set_task_storage].
  split; [apply lookup_insert_eq|]. split; [apply updated_status|].
  match goal with |- context [updated ?t0 "completed" [kw_result ?r] ?tk] =>
    destruct (updated_result t0 "completed" r tk) as (Hr & Hp & _ & Hs) end.
  split; [rewrite Hr; eauto|]. split; [rewrite Hs, Hstart; reflexivity|].
  split; [exact Hp|]. unfold updated. simpl. reflexivity.
Qed.

(** Three file systems: one without files, one where every file exists,
    and one that refuses every name. *)
Definition no_files : string -> Exc bool := fun _ => Ok false.
Definition all_files : string -> Exc bool := fun _ => Ok true.
Definition no_names : string -> Exc bool :=
  fun _ => Raise (OSError "[Errno 36] File name too long").

Definition resize_request : FileProcessRequest :=
  {| file_path := "/tmp/image.jpg"; operation := "resize";
     parameters := JDict [("width", JInt 800); ("height", JInt 600)] |}.

(** A registry with one pending task. *)
Definition pending_world : World :=
  {| now := 0; next_uuid := "t3";
     task_storage := {["t2" := new_TaskStatus "t2" 0 (JDict [])]};
     background_tasks := [] |}.

Lemma file_task_fails_alone_witness :
  (exists task' w',
     process_file_task id no_files resize_request "t2" pending_world = (Ok tt, w') /\
     task_storage w' !! "t2" = Some task' /\
     status task' = "failed" /\ error task' = Some "File not found: /tmp/image.jpg" /\
     progress task' = 0.1%float) /\
  (exists task' w',
     process_file_task id no_names resize_request "t2" pending_world = (Ok tt, w') /\
     task_storage w' !! "t2" = Some task' /\
     status task' = "failed" /\ error task' = Some "[Errno 36] File name too long" /\
     progress task' = 0.1%float).
Proof.
  split.
  - destruct (file_task_fails_alone id no_files resize_request "t2" pending_world
                (new_TaskStatus "t2" 0 (JDict [])) "File not found: /tmp/image.jpg" 0.1%float)
      as (task' & w' & Hrun & Hget & Hstatus & Herror & Hprogress & _).
    + reflexivity.
    + reflexivity.
    + discriminate.
    + exists task', w'. repeat split; assumption.
  - destruct (file_task_fails_alone id no_names resize_request "t2" pending_world
                (new_TaskStatus "t2" 0 (JDict [])) "[Errno 36] File name too long" 0.1%float)
      as (task' & w' & Hrun & Hget & Hstatus & Herror & Hprogress & _).
    + reflexivity.
    + reflexivity.
    + intros e [= <-]. discriminate.
    + exists task', w'. repeat split; assumption.
Defined.

Lemma file_task_completes_witness :
  exists task' w',
    process_file_task id all_files resize_request "t2" pending_world = (Ok tt, w') /\
    task_storage w' !! "t2" = Some task' /\
    status task' = "completed" /\ progress task' = 0.9%float /\ now w' = 2000000%Z.
Proof.
  destruct (file_task_completes id all_files resize_request "t2" pending_world
              (new_TaskStatus "t2" 0 (JDict [])))
    as (task' & w' & Hrun & Hget & Hstatus & _ & _ & Hprogress & Hnow & _).
  - reflexivity.
  - reflexivity.
  - exists task', w'. repeat split; assumption.
Defined.

Lemma notification_skips_running_witness :
  exists task' w',
    send_notification_email "user@example.com" "hi" "t2" pending_world = (Ok tt, w') /\
    task_storage w' !! "t2" = Some task' /\
    status task' = "completed" /\ started_at task' = None /\
    completed_at task' = Some 500000%Z.
Proof.
  destruct (notification_skips_running "user@example.com" "hi" "t2" pending_world
              (new_TaskStatus "t2" 0 (JDict [])))
    as (task' & w' & Hrun & Hget & Hstatus & _ & Hstart & _ & Hdone).
  - reflexivity.
  - reflexivity.
  - exists task', w'. repeat split; assumption.
Defined.

End WorkerProofs.
